(** * smplx2fbx: pose-to-animation conversion, embedded from [smplx2fbx.py]

    The development follows the script top-down: a fragment of the Python
    and numpy runtime ([Py], [Np]), the interface of the external numeric
    libraries ([Runtime]), then [Rodrigues], [ToQuaternion],
    [get_input_data], [process_pose] and [process_poses], and finally the
    properties of the conversion pipeline.

    Numbers are IEEE binary64 values (numpy's float64, Python's float),
    Python integers are [Z], and exceptions are values of [Py.exn]. *)

From Stdlib Require Import ZArith List Bool String Lia Floats.
Import ListNotations.

Set Implicit Arguments.

(** * Python runtime *)

Module Py.

(** The exceptions the script can raise through numpy and the
    interpreter. *)
Inductive exn : Type :=
| ValueError          (* numpy: reshape, concatenate, stack, vstack *)
| IndexError          (* numpy: index out of bounds *)
| ZeroDivisionError   (* int / int with a zero divisor *)
| AssertionError.     (* a failed assert statement *)

Inductive result (A : Type) : Type :=
| Ok (a : A)
| Raise (e : exn).
Arguments Ok {A} a.
Arguments Raise {A} e.

Definition bind {A B} (c : result A) (k : A -> result B) : result B :=
  match c with
  | Ok a => k a
  | Raise e => Raise e
  end.

(** [assert (cond, msg)]: the operand of [assert] is a two-element tuple,
    and a non-empty tuple is true whatever it holds, so the statement
    never raises. *)
Definition tuple2_truth {A B} (_ : A) (_ : B) : bool := true.

Definition assert_ (b : bool) : result unit :=
  if b then Ok tt else Raise AssertionError.

(** [a[i]] on the first axis: a negative index counts from the end. *)
Definition getitem {A} (a : list A) (i : Z) : result A :=
  let n := Z.of_nat (List.length a) in
  let j := (if i <? 0 then i + n else i)%Z in
  if ((0 <=? j) && (j <? n))%Z
  then match nth_error a (Z.to_nat j) with
       | Some x => Ok x
       | None => Raise IndexError
       end
  else Raise IndexError.

(** [int(a / b)] on integers: true division, then truncation toward zero.
    The quotient of two integers is a correctly rounded double, so for
    operands below 2^53 in magnitude the truncation is that of the exact
    quotient, which is what this definition gives.  It does not describe
    larger operands, for which Python truncates a rounded quotient, or
    raises OverflowError when the quotient is no double: the statements
    below that take the value of a quotient from it bound the rates by
    [INT_MAX]. *)
Definition int_truediv (a b : Z) : result Z :=
  if (b =? 0)%Z then Raise ZeroDivisionError else Ok (Z.quot a b).

(** The range of a C int.  Blender keeps [scene.render.fps] in one: the
    assignment of a Python integer outside of this range raises
    ValueError, one inside of it is accepted (and fitted to the range of
    the property). *)
Definition INT_MIN : Z := -2147483648.
Definition INT_MAX : Z := 2147483647.

(** [math.radians]: multiplication by pi/180. *)
Definition pi : float := 0x1.921fb54442d18p+1%float.
Definition radians (x : float) : float := (x * (pi / 180))%float.

End Py.

Export Py(exn(..), result(..), INT_MIN, INT_MAX).

Declare Scope py_scope.
Delimit Scope py_scope with py.
Notation "x <- c ;; k" := (Py.bind c (fun x => k))
  (at level 61, c at next level, right associativity) : py_scope.
Notation "c ;;; k" := (Py.bind c (fun _ => k))
  (at level 61, right associativity) : py_scope.

(** * numpy arrays of the shapes the script handles *)

Record vec3 : Type := V3 { v0 : float; v1 : float; v2 : float }.

(** Quaternions are stored (w, x, y, z). *)
Record quat : Type := Q4 { q0 : float; q1 : float; q2 : float; q3 : float }.

Record mat3 : Type := M3 { row0 : vec3; row1 : vec3; row2 : vec3 }.

(** A rotation-vector array: shape (3,) or shape (N, 3).  This is the
    shape the message of the assertion in [ToQuaternion] asks for. *)
Inductive rotvecs : Type :=
| Single (v : vec3)
| Batch (rows : list vec3).

(** The converted array: shape (4,) or shape (N, 4). *)
Inductive quats : Type :=
| QSingle (q : quat)
| QBatch (rows : list quat).

Module Np.

Local Open Scope float_scope.

Definition rotvecs_ndim (a : rotvecs) : nat :=
  match a with Single _ => 1 | Batch _ => 2 end.

Definition rotvecs_last_dim (a : rotvecs) : nat := 3.

(** [np.linalg.norm] of a 1-D array: the square root of [x.dot(x)]. *)
Definition dot3 (a b : vec3) : float :=
  v0 a * v0 b + v1 a * v1 b + v2 a * v2 b.

Definition norm (x : vec3) : float := sqrt (dot3 x x).

Definition vdiv (x : vec3) (s : float) : vec3 :=
  V3 (v0 x / s) (v1 x / s) (v2 x / s).

(** Elementwise difference of two length-3 arrays. *)
Definition vsub (a b : vec3) : vec3 :=
  V3 (v0 a - v0 b) (v1 a - v1 b) (v2 a - v2 b).

Definition eye3 : mat3 :=
  M3 (V3 1 0 0) (V3 0 1 0) (V3 0 0 1).

(** [r.dot(r.T)] for a column [r] of shape (3, 1): the outer product. *)
Definition outer (r : vec3) : mat3 :=
  M3 (V3 (v0 r * v0 r) (v0 r * v1 r) (v0 r * v2 r))
     (V3 (v1 r * v0 r) (v1 r * v1 r) (v1 r * v2 r))
     (V3 (v2 r * v0 r) (v2 r * v1 r) (v2 r * v2 r)).

(** A scalar broadcast over a 3x3 array. *)
Definition full (s : float) : mat3 :=
  M3 (V3 s s s) (V3 s s s) (V3 s s s).

Definition vmap2 (f : float -> float -> float) (a b : vec3) : vec3 :=
  V3 (f (v0 a) (v0 b)) (f (v1 a) (v1 b)) (f (v2 a) (v2 b)).

Definition mmap2 (f : float -> float -> float) (a b : mat3) : mat3 :=
  M3 (vmap2 f (row0 a) (row0 b)) (vmap2 f (row1 a) (row1 b))
     (vmap2 f (row2 a) (row2 b)).

Definition madd : mat3 -> mat3 -> mat3 := mmap2 add.

(** [s * m] for a scalar [s]. *)
Definition mscale (s : float) (m : mat3) : mat3 :=
  mmap2 mul (full s) m.

(** One row of [np.matmul(a, m)]: the row vector times the matrix. *)
Definition row_matmul (x : vec3) (m : mat3) : vec3 :=
  V3 (v0 x * v0 (row0 m) + v1 x * v0 (row1 m) + v2 x * v0 (row2 m))
     (v0 x * v1 (row0 m) + v1 x * v1 (row1 m) + v2 x * v1 (row2 m))
     (v0 x * v2 (row0 m) + v1 x * v2 (row1 m) + v2 x * v2 (row2 m)).

Definition matmul (a : rotvecs) (m : mat3) : rotvecs :=
  match a with
  | Single v => Single (row_matmul v m)
  | Batch rows => Batch (map (fun v => row_matmul v m) rows)
  end.

(** [np.stack] and [np.vstack] over a Python list of arrays: the list
    must not be empty and the arrays must agree in shape.  [size] gives
    the one dimension that can differ here. *)
Definition stack {A} (size : A -> nat) (arrays : list A)
  : result (list A) :=
  match arrays with
  | [] => Raise ValueError
  | a :: rest =>
      if forallb (fun b => Nat.eqb (size b) (size a)) rest
      then Ok arrays
      else Raise ValueError
  end.

(** [np.concatenate([a, b], axis=0)] followed by [flatten()]: both arrays
    need the same number of dimensions.  A flat array of 4k numbers is
    kept as its k quaternions. *)
Definition concatenate_flatten (a b : quats) : result (list quat) :=
  match a, b with
  | QSingle x, QSingle y => Ok [x; y]
  | QBatch xs, QBatch ys => Ok (xs ++ ys)
  | _, _ => Raise ValueError
  end.

(** [a.reshape(-1, 4)]. *)
Definition reshape_rows4 (a : quats) : list quat :=
  match a with
  | QSingle q => [q]
  | QBatch rows => rows
  end.

(** [a.reshape(k, 4)] of an array holding the quaternions [a]. *)
Definition reshape_k4 (k : nat) (a : list quat) : result (list quat) :=
  if Nat.eqb (List.length a) k then Ok a else Raise ValueError.

End Np.

(** * The external numeric libraries

    [np.cos] and [np.sin] (the C library's), and mathutils, whose vectors
    and quaternions hold single-precision numbers: [f32] rounds a double to
    the nearest single, [to_quaternion] is [Matrix(m).to_quaternion()] read
    back into a numpy array, [Quaternion_axis_angle] is the two-argument
    constructor [Quaternion(axis, angle)] and [Quaternion_matmul] the
    product [a @ b]. *)

Class Runtime : Type := {
  cos : float -> float;
  sin : float -> float;
  f32 : float -> float;
  to_quaternion : mat3 -> quat;
  Quaternion_axis_angle : vec3 -> float -> quat;
  Quaternion_matmul : quat -> quat -> quat
}.

Definition identity_quat : quat := Q4 1 0 0 0.

Section Conversion.

Context {RT : Runtime}.

Local Open Scope float_scope.

(** ** Rodrigues *)

(** The skew-symmetric array built from [r]. *)
Definition skew (r : vec3) : mat3 :=
  M3 (V3 0 (- v2 r) (v1 r))
     (V3 (v2 r) 0 (- v0 r))
     (V3 (- v1 r) (v0 r) 0).

(** With [theta > 0] the axis is normalised and reshaped to a column, so
    [r.dot(r.T)] is the 3x3 outer product.  Otherwise [r] stays the 1-D
    input, [r.dot(r.T)] is the scalar inner product, and numpy
    broadcasts it over the matrix.  The three terms are added from left
    to right.  (The entries [r[i]] of a column are one-element arrays;
    [np.asarray] reads them as numbers, as the numpy releases the script
    was written for do.) *)
Definition Rodrigues (rotvec : vec3) : mat3 :=
  let theta := Np.norm rotvec in
  let cost := cos theta in
  if 0 <? theta then
    let r := Np.vdiv rotvec theta in
    Np.madd (Np.madd (Np.mscale cost Np.eye3)
                     (Np.mscale (1 - cost) (Np.outer r)))
            (Np.mscale (sin theta) (skew r))
  else
    let r := rotvec in
    Np.madd (Np.madd (Np.mscale cost Np.eye3)
                     (Np.full ((1 - cost) * Np.dot3 r r)))
            (Np.mscale (sin theta) (skew r)).

(** ** ToQuaternion *)

Definition rotvec_to_quat (v : vec3) : quat :=
  to_quaternion (Rodrigues v).

Definition ToQuaternion (rotvec : rotvecs) : result quats :=
  (Py.assert_
     (Py.tuple2_truth
        (Nat.eqb (Np.rotvecs_last_dim rotvec) 3
         && Nat.leb (Np.rotvecs_ndim rotvec) 2)
        "Need a a rotvec shape as (N, 3) or (3,)"%string) ;;;
   match rotvec with
   | Single v => Ok (QSingle (rotvec_to_quat v))
   | Batch rows =>
       res <- Np.stack (fun _ : quat => 4%nat) (map rotvec_to_quat rows) ;;
       Ok (QBatch res)
   end)%py.

End Conversion.

(** * Joint names *)

Local Open Scope string_scope.

Definition ROOT_NAME : string := "SMPLX-neutral".

Definition BODY_JOINT_NAMES : list string :=
  [ "pelvis"; "left_hip"; "right_hip"; "spine1"; "left_knee"; "right_knee";
    "spine2"; "left_ankle"; "right_ankle"; "spine3"; "left_foot";
    "right_foot"; "neck"; "left_collar"; "right_collar"; "head";
    "left_shoulder"; "right_shoulder"; "left_elbow"; "right_elbow";
    "left_wrist"; "right_wrist" ].

Definition LHAND_JOINT_NAMES : list string :=
  [ "left_index1"; "left_index2"; "left_index3"; "left_middle1";
    "left_middle2"; "left_middle3"; "left_pinky1"; "left_pinky2";
    "left_pinky3"; "left_ring1"; "left_ring2"; "left_ring3";
    "left_thumb1"; "left_thumb2"; "left_thumb3" ].

Definition RHAND_JOINT_NAMES : list string :=
  [ "right_index1"; "right_index2"; "right_index3"; "right_middle1";
    "right_middle2"; "right_middle3"; "right_pinky1"; "right_pinky2";
    "right_pinky3"; "right_ring1"; "right_ring2"; "right_ring3";
    "right_thumb1"; "right_thumb2"; "right_thumb3" ].

Local Close Scope string_scope.

(** * Input records and the assembled arrays *)

(** One .npz file of the input directory. *)
Record npz : Type := {
  global_orient : rotvecs;
  body_pose : rotvecs;
  left_hand_pose : rotvecs;
  right_hand_pose : rotvecs;
  transl : vec3
}.

(** What [get_input_data] returns: [poses] has one flat row per file,
    [lhposes] and [rhposes] one (k, 4) block per file, [trans] one
    translation per file. *)
Record input_data : Type := {
  poses : list (list quat);
  lhposes : list (list quat);
  rhposes : list (list quat);
  trans : list vec3
}.

Definition fix_coor : mat3 :=
  M3 (V3 1 0 0) (V3 0 1 0) (V3 0 0 (-1)).

(** The four per-file arrays appended in one pass of the loop of
    [get_input_data]. *)
Record assembled : Type := {
  a_pose : list quat;
  a_lhpose : list quat;
  a_rhpose : list quat;
  a_trans : vec3
}.

Section Assembly.

Context {RT : Runtime}.

(** The body of the loop over the files. *)
Definition assemble (npz_data : npz) : result assembled :=
  (g <- ToQuaternion (global_orient npz_data) ;;
   b <- ToQuaternion (body_pose npz_data) ;;
   rot <- Np.concatenate_flatten g b ;;
   lhand_quaternions <-
     ToQuaternion (Np.matmul (left_hand_pose npz_data) fix_coor) ;;
   rhand_quaternions <-
     ToQuaternion (Np.matmul (right_hand_pose npz_data) fix_coor) ;;
   Ok {| a_pose := rot;
         a_lhpose := Np.reshape_rows4 lhand_quaternions;
         a_rhpose := Np.reshape_rows4 rhand_quaternions;
         a_trans := transl npz_data |})%py.

Fixpoint assemble_all (frame_list : list npz) : result (list assembled) :=
  match frame_list with
  | [] => Ok []
  | npz_data :: rest =>
      (a <- assemble npz_data ;;
       l <- assemble_all rest ;;
       Ok (a :: l))%py
  end.

(** [frame_list] is the content of the input directory in the order of
    the sorted file names. *)
Definition get_input_data (frame_list : list npz) : result input_data :=
  (l <- assemble_all frame_list ;;
   poses <- Np.stack (@List.length quat) (map a_pose l) ;;
   lhposes <- Np.stack (@List.length quat) (map a_lhpose l) ;;
   rhposes <- Np.stack (@List.length quat) (map a_rhpose l) ;;
   trans <- Np.stack (fun _ : vec3 => 3%nat) (map a_trans l) ;;
   Ok {| poses := poses; lhposes := lhposes; rhposes := rhposes;
         trans := trans |})%py.

End Assembly.

(** * The scene: what the script leaves in Blender *)

Inductive mode : Type := OBJECT | EDIT | POSE.

(** One call of [keyframe_insert] on a pose bone. *)
Inductive keyframe : Type :=
| KeyLocation (bone : string) (frame : Z) (location : vec3)
| KeyRotation (bone : string) (frame : Z) (rotation_quaternion : quat).

(** The part of the Blender scene the script writes: the values it
    assigns to [scene.render.fps] and [scene.frame_end] (as assigned,
    before Blender fits them to the range of the property), the frame of
    the last [scene.frame_set], the mode of the last [mode_set], and the
    keyframes inserted on the armature, oldest first.  The template
    armature is taken to have every bone of the three name tables.

    [render_fps] is the script's own assignment in [setup_scene].  The
    import of the template that follows it there is Blender's and is not
    modelled; it sets the frame rate of the scene from the template file,
    so [render_fps] is the rate the script asked for, not the rate of the
    scene after the run. *)
Record scene : Type := {
  render_fps : Z;
  frame_end : Z;
  frame_current : Z;
  object_mode : mode;
  keyframes : list keyframe
}.

Definition set_render_fps (fps : Z) (sc : scene) : scene :=
  {| render_fps := fps; frame_end := frame_end sc;
     frame_current := frame_current sc; object_mode := object_mode sc;
     keyframes := keyframes sc |}.

Definition set_frame_end (n : Z) (sc : scene) : scene :=
  {| render_fps := render_fps sc; frame_end := n;
     frame_current := frame_current sc; object_mode := object_mode sc;
     keyframes := keyframes sc |}.

Definition frame_set (frame : Z) (sc : scene) : scene :=
  {| render_fps := render_fps sc; frame_end := frame_end sc;
     frame_current := frame; object_mode := object_mode sc;
     keyframes := keyframes sc |}.

Definition mode_set (m : mode) (sc : scene) : scene :=
  {| render_fps := render_fps sc; frame_end := frame_end sc;
     frame_current := frame_current sc; object_mode := m;
     keyframes := keyframes sc |}.

Definition keyframe_insert (ks : list keyframe) (sc : scene) : scene :=
  {| render_fps := render_fps sc; frame_end := frame_end sc;
     frame_current := frame_current sc; object_mode := object_mode sc;
     keyframes := keyframes sc ++ ks |}.

(** How a run of [process_poses] ends. *)
Inductive outcome : Type :=
| Returned (frame : Z)
| Raised (e : exn)
| OutOfFuel.

Section Animation.

Context {RT : Runtime}.

Local Open Scope float_scope.

(** ** mathutils values *)

Definition Vector (v : vec3) : vec3 :=
  V3 (f32 (v0 v)) (f32 (v1 v)) (f32 (v2 v)).

Definition Vector_sub (a b : vec3) : vec3 :=
  V3 (f32 (v0 a - v0 b)) (f32 (v1 a - v1 b)) (f32 (v2 a - v2 b)).

Definition Quaternion (seq : quat) : quat :=
  Q4 (f32 (q0 seq)) (f32 (q1 seq)) (f32 (q2 seq)) (f32 (q3 seq)).

Definition quat_x_180_cw : quat :=
  Quaternion_axis_angle (V3 1 0 0) (Py.radians (-180)).

(** ** process_pose *)

(** The largest single-precision number. *)
Definition FLT_MAX : float := 0x1.fffffep+127.

(** A number as a float property of Blender keeps it: brought into the
    range from -FLT_MAX to FLT_MAX, so that an infinity becomes the
    nearer bound; NaN fails both comparisons and stays. *)
Definition clamp (x : float) : float :=
  if x <? - FLT_MAX then - FLT_MAX
  else if FLT_MAX <? x then FLT_MAX
  else x.

(** The assignment to [bones[...].location].  The third component is the
    difference of zero and a coordinate of a bone head, which lies in the
    range already. *)
Definition location_set (v : vec3) : vec3 :=
  V3 (clamp (v0 v)) (clamp (v1 v)) (v2 v).

(** The location the pelvis bone holds after the assignment, which
    [keyframe_insert] records. *)
Definition pelvis_location (trans pelvis_position : vec3) : vec3 :=
  location_set
    (Vector_sub (Vector (V3 (v0 trans) (v1 trans) 0)) pelvis_position).

(** The loop over [enumerate(rod_rots, 0)]. *)
Fixpoint body_keys (current_frame : Z) (index : nat) (rod_rots : list quat)
  : list keyframe :=
  match rod_rots with
  | [] => []
  | mat_rot :: rest =>
      (if Nat.leb 22 index then []
       else
         let bone := nth index BODY_JOINT_NAMES EmptyString in
         let bone_rotation := Quaternion mat_rot in
         let rotation_quaternion :=
           if Nat.eqb index 0
           then Quaternion_matmul quat_x_180_cw bone_rotation
           else bone_rotation in
         [KeyRotation bone current_frame rotation_quaternion])
      ++ body_keys current_frame (S index) rest
  end.

(** The loops over [enumerate(lhrod_rots, 0)] and
    [enumerate(rhrod_rots, 0)], which differ in the name table only. *)
Fixpoint hand_keys (names : list string) (current_frame : Z) (index : nat)
  (hrod_rots : list quat) : list keyframe :=
  match hrod_rots with
  | [] => []
  | mat_rot :: rest =>
      (if Nat.leb 15 index then []
       else
         let bone := nth index names EmptyString in
         let bone_rotation := Quaternion mat_rot in
         [KeyRotation bone current_frame bone_rotation])
      ++ hand_keys names current_frame (S index) rest
  end.

(** The keyframes one call inserts, in order; the three reshapes come
    first and raise before anything is inserted. *)
Definition process_pose (current_frame : Z) (pose lhandpose rhandpose : list quat)
  (trans pelvis_position : vec3) : result (list keyframe) :=
  (rod_rots <- Np.reshape_k4 22 pose ;;
   lhrod_rots <- Np.reshape_k4 15 lhandpose ;;
   rhrod_rots <- Np.reshape_k4 15 rhandpose ;;
   Ok (KeyLocation (nth 0 BODY_JOINT_NAMES EmptyString) current_frame
         (pelvis_location trans pelvis_position)
       :: body_keys current_frame 0 rod_rots
       ++ hand_keys LHAND_JOINT_NAMES current_frame 0 lhrod_rots
       ++ hand_keys RHAND_JOINT_NAMES current_frame 0 rhrod_rots))%py.

(** ** process_poses *)

Local Open Scope Z_scope.

(** The [while] loop.  [fuel] bounds the number of tests of the loop
    condition. *)
Fixpoint pose_loop (fuel : nat) (d : input_data) (start_origin : bool)
  (sample_rate : Z) (pelvis_position : vec3)
  (source_index frame : Z) (offset : vec3) (sc : scene)
  : scene * outcome :=
  match fuel with
  | O => (sc, OutOfFuel)
  | S fuel' =>
      if source_index <? Z.of_nat (List.length (poses d)) then
        match
          (if start_origin && (source_index =? 0)
           then (t <- Py.getitem (trans d) source_index ;;
                 Ok (V3 (v0 t) (v1 t) 0%float))%py
           else Ok offset)
        with
        | Raise e => (sc, Raised e)
        | Ok offset =>
            let sc := frame_set frame sc in
            match
              (p <- Py.getitem (poses d) source_index ;;
               l <- Py.getitem (lhposes d) source_index ;;
               r <- Py.getitem (rhposes d) source_index ;;
               t <- Py.getitem (trans d) source_index ;;
               process_pose frame p l r (Np.vsub t offset)
                 pelvis_position)%py
            with
            | Raise e => (sc, Raised e)
            | Ok ks =>
                pose_loop fuel' d start_origin sample_rate pelvis_position
                  (source_index + sample_rate) (frame + 1) offset
                  (keyframe_insert ks sc)
            end
        end
      else (mode_set OBJECT sc, Returned frame)
  end.

(** [pelvis_head] is the head of the pelvis edit bone of the imported
    template; [sc] is the scene before the call. *)
Definition process_poses (frame_list : list npz) (pelvis_head : vec3)
  (fps_source fps_target : Z) (start_origin : bool) (sc : scene)
  : scene * outcome :=
  match get_input_data frame_list with
  | Raise e => (sc, Raised e)
  | Ok d =>
      let fps_target :=
        if fps_target >? fps_source then fps_source else fps_target in
      let sc := set_render_fps fps_target sc in
      match Py.int_truediv fps_source fps_target with
      | Raise e => (sc, Raised e)
      | Ok sample_rate =>
          let n := Z.of_nat (List.length (poses d)) in
          match Py.int_truediv n sample_rate with
          | Raise e => (sc, Raised e)
          | Ok fe =>
              let sc := set_frame_end fe sc in
              let sc := mode_set EDIT sc in
              let pelvis_position := Vector pelvis_head in
              let sc := mode_set POSE sc in
              pose_loop (S (S (List.length (poses d)))) d start_origin
                sample_rate pelvis_position 0 1
                (V3 0%float 0%float 0%float) sc
          end
      end
  end.

End Animation.

(** * A runtime to run the model on concrete inputs

    Truncated series stand for cos and sin, mathutils values keep double
    precision, the matrix conversion is the branch of the trace-based
    method for a positive trace, and quaternions multiply by Hamilton's
    formula.  It is used to evaluate the definitions above on examples;
    no general statement below depends on it. *)

Module Ref.

Local Open Scope float_scope.

Definition series_cos (x : float) : float :=
  let y := x * x in
  1 - y / 2 * (1 - y / 12 * (1 - y / 30 * (1 - y / 56 * (1 - y / 90
    * (1 - y / 132))))).

Definition series_sin (x : float) : float :=
  let y := x * x in
  x * (1 - y / 6 * (1 - y / 20 * (1 - y / 42 * (1 - y / 72 * (1 - y / 110
    * (1 - y / 156)))))).

Definition trace_to_quaternion (m : mat3) : quat :=
  let s := 2 * sqrt (1 + v0 (row0 m) + v1 (row1 m) + v2 (row2 m)) in
  Q4 (0.25 * s)
     ((v1 (row2 m) - v2 (row1 m)) / s)
     ((v2 (row0 m) - v0 (row2 m)) / s)
     ((v0 (row1 m) - v1 (row0 m)) / s).

Definition axis_angle (axis : vec3) (angle : float) : quat :=
  let n := Np.norm axis in
  let si := series_sin (angle / 2) in
  Q4 (series_cos (angle / 2))
     (v0 axis / n * si) (v1 axis / n * si) (v2 axis / n * si).

Definition hamilton (a b : quat) : quat :=
  Q4 (q0 a * q0 b - q1 a * q1 b - q2 a * q2 b - q3 a * q3 b)
     (q0 a * q1 b + q1 a * q0 b + q2 a * q3 b - q3 a * q2 b)
     (q0 a * q2 b + q2 a * q0 b + q3 a * q1 b - q1 a * q3 b)
     (q0 a * q3 b + q3 a * q0 b + q1 a * q2 b - q2 a * q1 b).

Definition runtime : Runtime :=
  {| cos := series_cos;
     sin := series_sin;
     f32 := fun x => x;
     to_quaternion := trace_to_quaternion;
     Quaternion_axis_angle := axis_angle;
     Quaternion_matmul := hamilton |}.

End Ref.

(** * The expected animation track

    The definitions of this section are not part of the script: they
    describe its result in closed form, and the properties below relate
    them to [process_poses]. *)

(** The record layout of the input format: one global orientation, 21
    body joints and 15 joints per hand, each array two-dimensional. *)
Definition is_batch_of (k : nat) (a : rotvecs) : bool :=
  match a with
  | Single _ => false
  | Batch rows => Nat.eqb (List.length rows) k
  end.

Definition well_shaped (r : npz) : bool :=
  is_batch_of 1 (global_orient r) && is_batch_of 21 (body_pose r)
  && is_batch_of 15 (left_hand_pose r) && is_batch_of 15 (right_hand_pose r).

(** The number of joints an array holds. *)
Definition joint_count (a : rotvecs) : nat :=
  match a with
  | Single _ => 1
  | Batch rows => List.length rows
  end.

Definition rotvec_rows (a : rotvecs) : list vec3 :=
  match a with
  | Single v => [v]
  | Batch rows => rows
  end.

Definition empty_npz : npz :=
  {| global_orient := Batch []; body_pose := Batch [];
     left_hand_pose := Batch []; right_hand_pose := Batch [];
     transl := V3 0 0 0 |}.

(** The stride of the resampler, as the script computes it. *)
Definition sample_rate_of (fps_source fps_target : Z) : Z :=
  Z.quot fps_source
    (if (fps_target >? fps_source)%Z then fps_source else fps_target).

(** The number of multiples of [s] below [n], counted from [i]. *)
Definition frames_from (n s i : Z) : nat :=
  Z.to_nat ((n - i + s - 1) / s).

Definition location_frames (ks : list keyframe) : list Z :=
  flat_map (fun k => match k with
                     | KeyLocation _ frame _ => [frame]
                     | KeyRotation _ _ _ => []
                     end) ks.

(** What [__main__] prints as "Poses processed": the value
    [process_poses] returned. *)
Definition poses_processed (r : scene * outcome) : option Z :=
  match snd r with
  | Returned frame => Some frame
  | _ => None
  end.

(** Binary64 values that are numbers (neither NaN nor infinite), and
    values equal as numbers (the two zeros are). *)
Definition SFnumber (a : spec_float) : Prop :=
  match a with
  | S754_zero _ | S754_finite _ _ _ => True
  | _ => False
  end.

Definition SFsame (a b : spec_float) : Prop :=
  a = b \/ exists s s', a = S754_zero s /\ b = S754_zero s'.

(** The zero vector: every component 0.0 or -0.0. *)
Definition zero3 (v : vec3) : bool :=
  is_zero (v0 v) && is_zero (v1 v) && is_zero (v2 v).

Definition has_nan (v : vec3) : bool :=
  is_nan (v0 v) || is_nan (v1 v) || is_nan (v2 v).

(** The root translations of a track, with their frame numbers. *)
Definition location_keys (ks : list keyframe) : list (Z * vec3) :=
  flat_map (fun k => match k with
                     | KeyLocation _ frame location => [(frame, location)]
                     | KeyRotation _ _ _ => []
                     end) ks.


(** One rotation keyframe per name, in the order of the name table. *)
Definition keyed (names : list string) (frame : Z) (rots : list quat)
  : list keyframe :=
  map (fun nq => KeyRotation (fst nq) frame (snd nq)) (combine names rots).

Section Expected.

Context {RT : Runtime}.

(** The pose sample of a record: body quaternions in the order global
    orientation, body joints; hand vectors mirrored by [fix_coor] before
    the conversion. *)
Definition sample_of (r : npz) : assembled :=
  {| a_pose := map rotvec_to_quat
                 (rotvec_rows (global_orient r) ++ rotvec_rows (body_pose r));
     a_lhpose := map rotvec_to_quat
                   (map (fun v => Np.row_matmul v fix_coor)
                      (rotvec_rows (left_hand_pose r)));
     a_rhpose := map rotvec_to_quat
                   (map (fun v => Np.row_matmul v fix_coor)
                      (rotvec_rows (right_hand_pose r)));
     a_trans := transl r |}.

(** The arrays [get_input_data] builds from records in the expected
    layout. *)
Definition input_of (frame_list : list npz) : input_data :=
  {| poses := map a_pose (map sample_of frame_list);
     lhposes := map a_lhpose (map sample_of frame_list);
     rhposes := map a_rhpose (map sample_of frame_list);
     trans := map a_trans (map sample_of frame_list) |}.

(** The keyframes of one output frame. *)
Definition frame_keys (frame : Z) (a : assembled)
  (offset pelvis_position : vec3) : list keyframe :=
  KeyLocation (nth 0 BODY_JOINT_NAMES EmptyString) frame
    (pelvis_location (Np.vsub (a_trans a) offset) pelvis_position)
  :: body_keys frame 0 (a_pose a)
  ++ hand_keys LHAND_JOINT_NAMES frame 0 (a_lhpose a)
  ++ hand_keys RHAND_JOINT_NAMES frame 0 (a_rhpose a).

(** Row [i] of the arrays [get_input_data] returned. *)
Definition sample_at (d : input_data) (i : nat) : assembled :=
  {| a_pose := nth i (poses d) [];
     a_lhpose := nth i (lhposes d) [];
     a_rhpose := nth i (rhposes d) [];
     a_trans := nth i (trans d) (V3 0 0 0) |}.

(** The arrays of a sequence in the expected layout. *)
Record shaped (d : input_data) : Prop := {
  shaped_lhposes : List.length (lhposes d) = List.length (poses d);
  shaped_rhposes : List.length (rhposes d) = List.length (poses d);
  shaped_trans : List.length (trans d) = List.length (poses d);
  shaped_body : Forall (fun r => List.length r = 22%nat) (poses d);
  shaped_lhand : Forall (fun r => List.length r = 15%nat) (lhposes d);
  shaped_rhand : Forall (fun r => List.length r = 15%nat) (rhposes d)
}.

(** The offset of the origin centering. *)
Definition origin_offset (start_origin : bool) (t0 : vec3) : vec3 :=
  if start_origin then V3 (v0 t0) (v1 t0) 0 else V3 0 0 0.

(** The track: output frame [first + k] is taken from source index
    [i + k * s], for [k] below [count]. *)
Definition track (d : input_data) (offset pelvis_position : vec3)
  (s i first : Z) (count : nat) : list keyframe :=
  flat_map
    (fun k => frame_keys (first + Z.of_nat k)
                (sample_at d (Z.to_nat (i + Z.of_nat k * s)))
                offset pelvis_position)
    (seq 0 count).


(** The track of a whole run, read from the input records. *)
Definition expected_track (frame_list : list npz) (pelvis_head : vec3)
  (start_origin : bool) (s : Z) : list keyframe :=
  flat_map
    (fun k => frame_keys (1 + Z.of_nat k)
                (sample_of (nth (Z.to_nat (Z.of_nat k * s)) frame_list
                              empty_npz))
                (origin_offset start_origin (transl (hd empty_npz frame_list)))
                (Vector pelvis_head))
    (seq 0 (frames_from (Z.of_nat (List.length frame_list)) s 0)).

End Expected.

(** * Sample inputs *)

(** A record in the expected layout with every joint at rest. *)
Definition rest_record (t : vec3) : npz :=
  {| global_orient := Batch [V3 0 0 0];
     body_pose := Batch (repeat (V3 0 0 0) 21);
     left_hand_pose := Batch (repeat (V3 0 0 0) 15);
     right_hand_pose := Batch (repeat (V3 0 0 0) 15);
     transl := t |}.

(** The same with 20 body joints instead of 21. *)
Definition short_record (t : vec3) : npz :=
  {| global_orient := Batch [V3 0 0 0];
     body_pose := Batch (repeat (V3 0 0 0) 20);
     left_hand_pose := Batch (repeat (V3 0 0 0) 15);
     right_hand_pose := Batch (repeat (V3 0 0 0) 15);
     transl := t |}.

Definition origin : vec3 := V3 0 0 0.

(** A scene without animation, at frame 0. *)
Definition new_scene : scene :=
  {| render_fps := 24; frame_end := 250; frame_current := 0;
     object_mode := OBJECT; keyframes := [] |}.

(** * Channels of a track *)

Definition frame_of (k : keyframe) : Z :=
  match k with
  | KeyLocation _ frame _ => frame
  | KeyRotation _ frame _ => frame
  end.

Definition bone_of (k : keyframe) : string :=
  match k with
  | KeyLocation bone _ _ => bone
  | KeyRotation bone _ _ => bone
  end.

Definition is_location (k : keyframe) : bool :=
  match k with
  | KeyLocation _ _ _ => true
  | KeyRotation _ _ _ => false
  end.

(** What a keyframe is set on: its frame, its bone, and whether it is a
    location (true) or a rotation (false). *)
Definition channel_of (k : keyframe) : Z * (string * bool) :=
  (frame_of k, (bone_of k, is_location k)).

(** The channels [process_pose] keys in one call, in the order of its
    statements: the location of the pelvis, then the rotation of every
    joint of the three name tables. *)
Definition frame_channels : list (string * bool) :=
  (nth 0 BODY_JOINT_NAMES EmptyString, true)
  :: map (fun name => (name, false))
       (BODY_JOINT_NAMES ++ LHAND_JOINT_NAMES ++ RHAND_JOINT_NAMES).

(** * Translations without their third component *)

Definition ground_vec (t : vec3) : vec3 := V3 (v0 t) (v1 t) 0.

Definition ground (r : npz) : npz :=
  {| global_orient := global_orient r;
     body_pose := body_pose r;
     left_hand_pose := left_hand_pose r;
     right_hand_pose := right_hand_pose r;
     transl := ground_vec (transl r) |}.

Definition ground_sample (a : assembled) : assembled :=
  {| a_pose := a_pose a; a_lhpose := a_lhpose a; a_rhpose := a_rhpose a;
     a_trans := ground_vec (a_trans a) |}.

Definition ground_data (d : input_data) : input_data :=
  {| poses := poses d; lhposes := lhposes d; rhposes := rhposes d;
     trans := map ground_vec (trans d) |}.

Definition finite3 (v : vec3) : bool :=
  is_finite (v0 v) && is_finite (v1 v) && is_finite (v2 v).

(** * The sequences that assemble *)

(** An array [ToQuaternion] converts: any single vector, and any batch
    with a row. *)
Definition converts (a : rotvecs) : bool :=
  match a with
  | Single _ => true
  | Batch rows => negb (Nat.eqb (List.length rows) 0)
  end.

(** A record whose four arrays convert and whose global orientation and
    body pose have the same number of dimensions. *)
Definition assembles (r : npz) : bool :=
  converts (global_orient r) && converts (body_pose r)
  && Nat.eqb (Np.rotvecs_ndim (global_orient r))
       (Np.rotvecs_ndim (body_pose r))
  && converts (left_hand_pose r) && converts (right_hand_pose r).

Definition body_joints (r : npz) : nat :=
  joint_count (global_orient r) + joint_count (body_pose r).

(** A sequence with a first record, whose records assemble and have the
    joint counts of the first. *)
Definition accepted (frame_list : list npz) : bool :=
  match frame_list with
  | [] => false
  | r0 :: rest =>
      forallb assembles frame_list
      && forallb (fun r => Nat.eqb (body_joints r) (body_joints r0)) rest
      && forallb (fun r => Nat.eqb (joint_count (left_hand_pose r))
                             (joint_count (left_hand_pose r0))) rest
      && forallb (fun r => Nat.eqb (joint_count (right_hand_pose r))
                             (joint_count (right_hand_pose r0))) rest
  end.

(** The keyframes of a track set at frame [f], and a keyframe moved to
    frame [f]. *)
Definition in_frame (f : Z) (ks : list keyframe) : list keyframe :=
  filter (fun k => Z.eqb (frame_of k) f) ks.

Definition set_frame (f : Z) (k : keyframe) : keyframe :=
  match k with
  | KeyLocation bone _ location => KeyLocation bone f location
  | KeyRotation bone _ q => KeyRotation bone f q
  end.

(** * The export and the script's entry point

    The operating system is taken to be POSIX: [os.path.sep] is "/" and
    [os.path] is [posixpath]. *)

Module Os.

Import Ascii.

Local Open Scope string_scope.

Definition sep : string := "/".

(** [s.startswith(prefix)] and [s.endswith(suffix)]. *)
Definition startswith (s prefix : string) : bool := String.prefix prefix s.

Fixpoint endswith (s suffix : string) : bool :=
  (s =? suffix)
  || match s with
     | EmptyString => false
     | String _ s' => endswith s' suffix
     end.

(** [os.path.join(a, b)]. *)
Definition join (a b : string) : string :=
  if startswith b sep then b
  else if (a =? "") || endswith a sep then a ++ b
  else a ++ sep ++ b.

Fixpoint has_sep (p : string) : bool :=
  match p with
  | EmptyString => false
  | String c p' => (c =? "/")%char || has_sep p'
  end.

(** [p[:p.rfind(sep) + 1]]. *)
Fixpoint through_last_sep (p : string) : string :=
  match p with
  | EmptyString => EmptyString
  | String c p' => if has_sep p then String c (through_last_sep p') else ""
  end.

(** [head == sep * len(head)]. *)
Fixpoint only_sep (s : string) : bool :=
  match s with
  | EmptyString => true
  | String c s' => (c =? "/")%char && only_sep s'
  end.

(** [head.rstrip(sep)]. *)
Fixpoint rstrip_sep (s : string) : string :=
  match s with
  | EmptyString => EmptyString
  | String c s' => if only_sep s then "" else String c (rstrip_sep s')
  end.

(** [os.path.dirname(p)]. *)
Definition dirname (p : string) : string :=
  let head := through_last_sep p in
  if negb (head =? "") && negb (only_sep head) then rstrip_sep head
  else head.

End Os.

(** The namespace [parse_args] returns. *)
Module Args.

Record t : Type := {
  input_path : string;
  output_path : string;
  neural_smplx_path : string;
  fps_source : Z;
  fps_target : Z;
  gender : string;
  start_origin : bool;
  person_id : Z
}.

End Args.

(** What the script reads of its surroundings: whether Blender runs in
    the background, the working directory, the records under a path (in
    the order of the sorted file names; [None] for a path that does not
    exist; a path that exists is taken to be a directory of files
    [np.load] reads, with the five arrays), the directories that exist, those [os.makedirs] is allowed to
    make, and, of the imported template, the head of the pelvis bone and
    the children of the armature. *)
Record system : Type := {
  background : bool;
  getcwd : string;
  listing : string -> option (list npz);
  isdir : string -> bool;
  may_create : string -> bool;
  edit_bone_head : vec3;
  armature_children : list string
}.

Inductive export_format : Type := GLB | FBX.

(** A call of an exporter: [objects] are the objects selected and
    [animation] is the scene at the time of the call. *)
Record export_call : Type := {
  filepath : string;
  format : export_format;
  objects : list string;
  animation : scene
}.

(** What the script writes: the scene, the selection, the directories
    made and the files exported, oldest first. *)
Record world : Type := {
  bpy_scene : scene;
  selected : list string;
  made_dirs : list string;
  exported : list export_call
}.

Definition with_scene (sc : scene) (w : world) : world :=
  {| bpy_scene := sc; selected := selected w; made_dirs := made_dirs w;
     exported := exported w |}.

Definition select (names : list string) (w : world) : world :=
  {| bpy_scene := bpy_scene w; selected := names; made_dirs := made_dirs w;
     exported := exported w |}.

Definition make_dir (name : string) (w : world) : world :=
  {| bpy_scene := bpy_scene w; selected := selected w;
     made_dirs := made_dirs w ++ [name]; exported := exported w |}.

Definition export (f : export_format) (path : string) (w : world) : world :=
  {| bpy_scene := bpy_scene w; selected := selected w;
     made_dirs := made_dirs w;
     exported := exported w
                 ++ [{| filepath := path; format := f;
                        objects := selected w;
                        animation := bpy_scene w |}] |}.

(** The exceptions of this part of the script. *)
Inductive raised : Type :=
| SystemExit (code : Z)
| NameError
| FileNotFoundError
| OSError
| Exception (e : exn).

(** [os.path.isdir]: no directory has the empty name. *)
Definition is_dir (sys : system) (w : world) (name : string) : bool :=
  negb (name =? "")%string
  && (isdir sys name || existsb (String.eqb name) (made_dirs w)).

(** [os.makedirs(name, exist_ok=True)] for a name that is no
    directory. *)
Definition makedirs (sys : system) (name : string) (w : world)
  : world * option raised :=
  if (name =? "")%string then (w, Some FileNotFoundError)
  else if may_create sys name then (make_dir name w, None)
  else (w, Some OSError).

Definition export_animated_mesh (sys : system) (output_path : string)
  (w : world) : world * option raised :=
  let output_dir := Os.dirname output_path in
  let made :=
    if negb (is_dir sys w output_dir) then makedirs sys output_dir w
    else (w, None) in
  match snd made with
  | Some e => (fst made, Some e)
  | None =>
      let w := select [] (fst made) in
      let w := select (selected w ++ [ROOT_NAME]) w in
      match armature_children sys with
      | [] => (w, Some (Exception IndexError))
      | child :: _ =>
          let w := select (selected w ++ [child]) w in
          if Os.endswith output_path ".glb" then
            (export GLB output_path w, None)
          else if Os.endswith output_path ".fbx" then
            (export FBX output_path w, None)
          else (w, Some (SystemExit 1))
      end
  end.

(** How the script ends.  The handler of [SystemExit] prints the code
    of the exception as "Exit status" and lets the script run to its
    end: the exception is swallowed (the line that would exit again is
    commented out), so [Reported status] is a message, not the status of
    the process.  Any other exception is not caught. *)
Inductive ending : Type :=
| Reported (status : Z)
| Uncaught (e : raised)
| Unfinished.

Definition handler (e : raised) : ending :=
  match e with
  | SystemExit code => Reported code
  | _ => Uncaught e
  end.

(** A path as the script makes it absolute. *)
Definition absolute (cwd path : string) : string :=
  if negb (Os.startswith path Os.sep) then Os.join cwd path else path.

Section Script.

Context {RT : Runtime}.

(** The body of [if __name__ == '__main__'], from the parsed arguments
    on.  Outside background mode no argument is read and [input_path] is
    unbound where it is first used. *)
Definition main (sys : system) (args : Args.t) (w : world)
  : world * ending :=
  if background sys then
    match listing sys (absolute (getcwd sys) (Args.input_path args)) with
    | None => (w, handler (SystemExit 1))
    | Some frame_list =>
        let cwd := getcwd sys in
        let output_path := absolute cwd (Args.output_path args) in
        if negb (Os.endswith output_path ".fbx"
                 || Os.endswith output_path ".glb") then
          (w, handler (SystemExit 1))
        else
          let r := process_poses frame_list (edit_bone_head sys)
                     (Args.fps_source args) (Args.fps_target args)
                     (Args.start_origin args) (bpy_scene w) in
          let w := with_scene (fst r) w in
          match snd r with
          | Raised e => (w, handler (Exception e))
          | OutOfFuel => (w, Unfinished)
          | Returned poses_processed =>
              let x := export_animated_mesh sys output_path w in
              match snd x with
              | Some e => (fst x, handler e)
              | None => (fst x, handler (SystemExit 0))
              end
          end
    end
  else (w, handler NameError).

End Script.


(** A command line and its surroundings: the default arguments of the
    script, run in /home/user, where the input directory holds
    [records]. *)
Definition default_args : Args.t :=
  {| Args.input_path := "./demo/smplerx_result/smplx";
     Args.output_path := "./demo/fbx_result/res.fbx";
     Args.neural_smplx_path := "./demo/T_pos/smplx-neutral.fbx";
     Args.fps_source := 30;
     Args.fps_target := 30;
     Args.gender := "male";
     Args.start_origin := true;
     Args.person_id := 1 |}.

Definition with_output (path : string) (a : Args.t) : Args.t :=
  {| Args.input_path := Args.input_path a;
     Args.output_path := path;
     Args.neural_smplx_path := Args.neural_smplx_path a;
     Args.fps_source := Args.fps_source a;
     Args.fps_target := Args.fps_target a;
     Args.gender := Args.gender a;
     Args.start_origin := Args.start_origin a;
     Args.person_id := Args.person_id a |}.

Definition home_system (records : list npz) : system :=
  {| background := true;
     getcwd := "/home/user";
     listing := fun path =>
       if (path =? "/home/user/./demo/smplerx_result/smplx")%string
       then Some records else None;
     isdir := fun name => (name =? "/home/user")%string;
     may_create := fun _ => true;
     edit_bone_head := origin;
     armature_children := ["SMPLX-mesh-neutral"%string] |}.

Definition new_world : world :=
  {| bpy_scene := new_scene; selected := []; made_dirs := [];
     exported := [] |}.

(** * Negated vectors and transposed matrices

    [-v] and [m.T] of numpy. *)
Definition vneg (v : vec3) : vec3 :=
  V3 (- v0 v)%float (- v1 v)%float (- v2 v)%float.

Definition transpose (m : mat3) : mat3 :=
  M3 (V3 (v0 (row0 m)) (v0 (row1 m)) (v0 (row2 m)))
     (V3 (v1 (row0 m)) (v1 (row1 m)) (v1 (row2 m)))
     (V3 (v2 (row0 m)) (v2 (row1 m)) (v2 (row2 m))).

(** * Properties *)

(** ** The exception monad and indexing *)

Lemma bind_Ok {A B} (c : result A) (k : A -> result B) (b : B) :
  Py.bind c k = Ok b -> exists a, c = Ok a /\ k a = Ok b.
Proof.
  destruct c as [a|e]; simpl; intros H; [eauto | discriminate].
Qed.

Lemma getitem_nth {A} (a : list A) (i : nat) (d : A) :
  (i < List.length a)%nat ->
  Py.getitem a (Z.of_nat i) = Ok (nth i a d).
Proof.
  intros Hi. unfold Py.getitem.
  destruct (Z.ltb_spec (Z.of_nat i) 0) as [Hneg|_]; [lia|].
  destruct (Z.leb_spec 0 (Z.of_nat i)) as [_|Hneg]; [|lia].
  destruct (Z.ltb_spec (Z.of_nat i) (Z.of_nat (List.length a))) as [_|Hge];
    [|lia].
  simpl. rewrite Nat2Z.id.
  destruct (nth_error a i) as [x|] eqn:E.
  - now rewrite (nth_error_nth a i d E).
  - apply nth_error_None in E. lia.
Qed.

Lemma stack_Ok {A} (size : A -> nat) (l : list A) (k : nat) :
  l <> [] -> Forall (fun a => size a = k) l -> Np.stack size l = Ok l.
Proof.
  intros Hne Hall. destruct l as [|a rest]; [congruence|].
  unfold Np.stack. inversion Hall as [|? ? Ha Hrest]; subst.
  replace (forallb _ rest) with true; [reflexivity|].
  symmetry. apply forallb_forall. intros b Hb.
  rewrite Forall_forall in Hrest. rewrite (Hrest b Hb).
  apply Nat.eqb_refl.
Qed.

Lemma stack_inv {A} (size : A -> nat) (l l' : list A) :
  Np.stack size l = Ok l' ->
  l' = l /\ l <> [] /\ Forall (fun a => size a = size (hd a l)) l.
Proof.
  destruct l as [|a rest]; simpl; [discriminate|].
  destruct (forallb _ rest) eqn:E; [|discriminate].
  intros H; inversion H; subst. split; [reflexivity|]. split; [discriminate|].
  constructor; [reflexivity|].
  rewrite forallb_forall in E. apply Forall_forall. intros b Hb.
  now apply Nat.eqb_eq, E.
Qed.

(** ** The zero rotation vector *)

Lemma is_zero_cases (x : float) :
  is_zero x = true -> x = 0%float \/ x = (-0)%float.
Proof.
  unfold is_zero. rewrite eqb_spec.
  change (Prim2SF zero) with (S754_zero false).
  intros H. rewrite <- (SF2Prim_Prim2SF x).
  destruct (Prim2SF x) as [s|s| |s m e].
  - destruct s; [right | left]; reflexivity.
  - destruct s; discriminate.
  - discriminate.
  - destruct s; discriminate.
Qed.

Section Identity.

Context {RT : Runtime}.

Hypothesis cos_0 : cos 0 = 1%float.
Hypothesis sin_0 : sin 0 = 0%float.
Hypothesis to_quaternion_eye : to_quaternion Np.eye3 = identity_quat.

(** Whatever the signs of the zeros, the norm is +0, the vector is not
    normalised, and the sum of the three terms is the identity matrix
    exactly. *)
Lemma Rodrigues_zero (v : vec3) : zero3 v = true -> Rodrigues v = Np.eye3.
Proof.
  destruct v as [x y z]. unfold zero3. cbn [v0 v1 v2]. intros H.
  apply andb_prop in H as [H Hz]. apply andb_prop in H as [Hx Hy].
  apply is_zero_cases in Hx, Hy, Hz.
  destruct Hx as [-> | ->], Hy as [-> | ->], Hz as [-> | ->];
    unfold Rodrigues;
    match goal with
    | |- context [Np.norm ?u] => change (Np.norm u) with 0%float
    end;
    rewrite cos_0, sin_0; reflexivity.
Qed.

Lemma rotvec_to_quat_zero (v : vec3) :
  zero3 v = true -> rotvec_to_quat v = identity_quat.
Proof.
  intros H. unfold rotvec_to_quat. now rewrite (Rodrigues_zero v H).
Qed.

Lemma ToQuaternion_Batch (rows : list vec3) :
  rows <> [] ->
  ToQuaternion (Batch rows) = Ok (QBatch (map rotvec_to_quat rows)).
Proof.
  intros Hne. unfold ToQuaternion. cbn [Py.tuple2_truth Py.assert_ Py.bind].
  rewrite (@stack_Ok _ _ _ 4%nat).
  - reflexivity.
  - destruct rows; [congruence | discriminate].
  - apply Forall_forall. reflexivity.
Qed.

(** C2.  The zero rotation vector (0, 0, 0), with zeros of either sign,
    converts to the identity quaternion (1, 0, 0, 0): on the single-vector
    path, and in every row of a batch that holds it, whatever the other
    rows are. *)
Theorem zero_rotvec_identity (v : vec3) :
  zero3 v = true ->
  ToQuaternion (Single v) = Ok (QSingle identity_quat)
  /\ forall (rows : list vec3) (i : nat),
       nth_error rows i = Some v ->
       exists res,
         ToQuaternion (Batch rows) = Ok (QBatch res)
         /\ nth_error res i = Some identity_quat.
Proof.
  intros Hv. split.
  - unfold ToQuaternion. cbn [Py.tuple2_truth Py.assert_ Py.bind].
    now rewrite (rotvec_to_quat_zero v Hv).
  - intros rows i Hi. exists (map rotvec_to_quat rows). split.
    + apply ToQuaternion_Batch. intros ->. destruct i; discriminate.
    + rewrite nth_error_map, Hi. simpl. now rewrite (rotvec_to_quat_zero v Hv).
Qed.

End Identity.

(** The three premises hold of the reference runtime; the second row of
    the batch is the zero vector. *)
Lemma zero_rotvec_identity_witness :
  @ToQuaternion Ref.runtime (Single (V3 0 0 0)) = Ok (QSingle identity_quat)
  /\ exists res,
       @ToQuaternion Ref.runtime (Batch [V3 1 2 3; V3 0 0 0]) = Ok (QBatch res)
       /\ nth_error res 1 = Some identity_quat.
Proof.
  destruct (@zero_rotvec_identity Ref.runtime
              ltac:(reflexivity) ltac:(reflexivity) ltac:(reflexivity)
              (V3 0 0 0) ltac:(reflexivity))
    as [Hs Hb].
  split; [exact Hs|].
  apply (Hb [V3 1 2 3; V3 0 0 0] 1%nat). reflexivity.
Defined.

(** ** The resampling loop on a sequence in the expected layout *)

Lemma frames_from_S (n s i : Z) :
  (1 <= s)%Z -> (i < n)%Z ->
  frames_from n s i = S (frames_from n s (i + s)).
Proof.
  intros Hs Hi. unfold frames_from.
  replace (n - i + s - 1)%Z with ((n - (i + s) + s - 1) + 1 * s)%Z by lia.
  rewrite Z.div_add by lia.
  assert (0 <= (n - (i + s) + s - 1) / s)%Z by (apply Z.div_pos; lia).
  rewrite Z2Nat.inj_add by lia. simpl. lia.
Qed.

Lemma frames_from_0 (n s i : Z) :
  (1 <= s)%Z -> (n <= i)%Z -> frames_from n s i = 0%nat.
Proof.
  intros Hs Hi. unfold frames_from.
  assert ((n - i + s - 1) / s <= 0)%Z; [|lia].
  destruct (Z.eq_dec (n - i + s - 1) (s - 1)) as [E|E].
  - rewrite E. rewrite Z.div_small by lia. lia.
  - assert ((n - i + s - 1) / s < 1)%Z; [|lia].
    apply Z.div_lt_upper_bound; lia.
Qed.

(** The count of [frames_from] is the ceiling of [n / s]. *)
Lemma frames_from_ceil (n s : Z) :
  (1 <= s)%Z -> (0 <= n)%Z ->
  let c := Z.of_nat (frames_from n s 0) in
  ((c - 1) * s < n <= c * s)%Z.
Proof.
  intros Hs Hn c. subst c. unfold frames_from.
  rewrite Z.sub_0_r.
  assert (0 <= (n + s - 1) / s)%Z by (apply Z.div_pos; lia).
  rewrite Z2Nat.id by lia.
  pose proof (Z.div_mod (n + s - 1) s ltac:(lia)) as Hdm.
  pose proof (Z.mod_pos_bound (n + s - 1) s ltac:(lia)) as Hmod.
  nia.
Qed.

Section Loop.

Context {RT : Runtime}.

Variables (d : input_data) (start_origin : bool) (s : Z)
          (pelvis_position offset : vec3).

Hypothesis Hshaped : shaped d.
Hypothesis Hs : (1 <= s)%Z.

Lemma process_pose_at (frame : Z) (i : nat) :
  (i < List.length (poses d))%nat ->
  (p <- Py.getitem (poses d) (Z.of_nat i) ;;
   l <- Py.getitem (lhposes d) (Z.of_nat i) ;;
   r <- Py.getitem (rhposes d) (Z.of_nat i) ;;
   t <- Py.getitem (trans d) (Z.of_nat i) ;;
   process_pose frame p l r (Np.vsub t offset) pelvis_position)%py
  = Ok (frame_keys frame (sample_at d i) offset pelvis_position).
Proof.
  intros Hi. destruct Hshaped as [Hl Hr Ht Hb Hlh Hrh].
  rewrite (getitem_nth _ [] Hi).
  rewrite (getitem_nth (lhposes d) (i := i) []) by lia.
  rewrite (getitem_nth (rhposes d) (i := i) []) by lia.
  rewrite (getitem_nth (trans d) (i := i) (V3 0 0 0)) by lia.
  cbn [Py.bind]. unfold process_pose, Np.reshape_k4.
  rewrite Forall_forall in Hb, Hlh, Hrh.
  rewrite (Hb (nth i (poses d) [])) by (apply nth_In; lia).
  rewrite (Hlh (nth i (lhposes d) [])) by (apply nth_In; lia).
  rewrite (Hrh (nth i (rhposes d) [])) by (apply nth_In; lia).
  reflexivity.
Qed.

Lemma process_pose_at_Z (frame i : Z) :
  (0 <= i < Z.of_nat (List.length (poses d)))%Z ->
  (p <- Py.getitem (poses d) i ;;
   l <- Py.getitem (lhposes d) i ;;
   r <- Py.getitem (rhposes d) i ;;
   t <- Py.getitem (trans d) i ;;
   process_pose frame p l r (Np.vsub t offset) pelvis_position)%py
  = Ok (frame_keys frame (sample_at d (Z.to_nat i)) offset pelvis_position).
Proof.
  intros Hi. rewrite <- (@process_pose_at frame (Z.to_nat i)) by lia.
  rewrite Z2Nat.id by lia. reflexivity.
Qed.

Lemma track_S (i first : Z) (c : nat) :
  track d offset pelvis_position s i first (S c)
  = frame_keys first (sample_at d (Z.to_nat i)) offset pelvis_position
    ++ track d offset pelvis_position s (i + s) (first + 1) c.
Proof.
  unfold track. rewrite <- cons_seq. cbn [flat_map].
  rewrite Z.add_0_r, Z.mul_0_l, Z.add_0_r. f_equal.
  rewrite <- seq_shift, flat_map_concat_map, map_map,
    <- flat_map_concat_map.
  apply flat_map_ext. intros k. f_equal; [lia|]. f_equal. f_equal. lia.
Qed.

(** Once the offset is settled, the loop walks the indices [i], [i + s],
    ... below the length and numbers the frames from [frame] on. *)
Lemma pose_loop_forward (fuel : nat) :
  forall (i frame : Z) (sc : scene),
    (0 <= i)%Z -> start_origin = false \/ (0 < i)%Z ->
    (1 <= fuel)%nat ->
    (Z.of_nat (List.length (poses d)) <= i + (Z.of_nat fuel - 1) * s)%Z ->
    let n := Z.of_nat (List.length (poses d)) in
    let r := pose_loop fuel d start_origin s pelvis_position i frame
               offset sc in
    snd r = Returned (frame + Z.of_nat (frames_from n s i))
    /\ keyframes (fst r)
       = keyframes sc
         ++ track d offset pelvis_position s i frame (frames_from n s i)
    /\ object_mode (fst r) = OBJECT
    /\ render_fps (fst r) = render_fps sc
    /\ frame_end (fst r) = frame_end sc.
Proof.
  induction fuel as [|fuel IH]; intros i frame sc Hi Hoff Hfuel Hbound;
    [lia|].
  cbn zeta. cbn [pose_loop].
  destruct (Z.ltb_spec i (Z.of_nat (List.length (poses d)))) as [Hlt|Hge].
  - replace (start_origin && (i =? 0)%Z) with false.
    2:{ destruct Hoff as [->|Hpos]; [reflexivity|].
        destruct (Z.eqb_spec i 0); [lia|]. now rewrite andb_false_r. }
    rewrite process_pose_at_Z by lia.
    rewrite (frames_from_S Hs Hlt), track_S.
    destruct (IH (i + s)%Z (frame + 1)%Z
                (keyframe_insert
                   (frame_keys frame (sample_at d (Z.to_nat i)) offset
                      pelvis_position) (frame_set frame sc)))
      as (Hret & Hkeys & Hmode & Hfps & Hend); [lia | right; lia | nia | nia |].
    rewrite Hret, Hkeys, Hmode, Hfps, Hend. cbn [keyframe_insert frame_set
      keyframes render_fps frame_end].
    rewrite <- app_assoc. repeat split; f_equal; lia.
  - rewrite (frames_from_0 Hs Hge). cbn. rewrite app_nil_r, Z.add_0_r.
    repeat split.
Qed.

End Loop.

Section Run.

Context {RT : Runtime}.

Local Open Scope Z_scope.

(** One test of the loop condition. *)
Lemma pose_loop_S (fuel : nat) (d : input_data) (start_origin : bool)
  (s : Z) (pelvis_position : vec3) (i frame : Z) (offset : vec3)
  (sc : scene) :
  pose_loop (S fuel) d start_origin s pelvis_position i frame offset sc
  = if i <? Z.of_nat (List.length (poses d)) then
      match
        (if start_origin && (i =? 0)
         then (t <- Py.getitem (trans d) i ;;
               Ok (V3 (v0 t) (v1 t) 0%float))%py
         else Ok offset)
      with
      | Raise e => (sc, Raised e)
      | Ok offset =>
          match
            (p <- Py.getitem (poses d) i ;;
             l <- Py.getitem (lhposes d) i ;;
             r <- Py.getitem (rhposes d) i ;;
             t <- Py.getitem (trans d) i ;;
             process_pose frame p l r (Np.vsub t offset)
               pelvis_position)%py
          with
          | Raise e => (frame_set frame sc, Raised e)
          | Ok ks =>
              pose_loop fuel d start_origin s pelvis_position
                (i + s) (frame + 1) offset
                (keyframe_insert ks (frame_set frame sc))
          end
      end
    else (mode_set OBJECT sc, Returned frame).
Proof. reflexivity. Qed.

(** The whole loop, from index 0 and frame 1: the first pass settles the
    offset, which every frame then uses. *)
Lemma pose_loop_run (d : input_data) (start_origin : bool) (s : Z)
  (pelvis_position : vec3) (sc : scene) :
  shaped d -> 1 <= s -> (1 <= List.length (poses d))%nat ->
  let n := Z.of_nat (List.length (poses d)) in
  let offset := origin_offset start_origin (nth 0 (trans d) (V3 0 0 0)) in
  let r := pose_loop (S (S (List.length (poses d)))) d start_origin s
             pelvis_position 0 1 (V3 0 0 0) sc in
  snd r = Returned (1 + Z.of_nat (frames_from n s 0))
  /\ keyframes (fst r)
     = keyframes sc
       ++ track d offset pelvis_position s 0 1 (frames_from n s 0)
  /\ object_mode (fst r) = OBJECT
  /\ render_fps (fst r) = render_fps sc
  /\ frame_end (fst r) = frame_end sc.
Proof.
  intros Hshaped Hs Hn n offset.
  cbn zeta. rewrite pose_loop_S.
  destruct (Z.ltb_spec 0 (Z.of_nat (List.length (poses d)))) as [Hlt|Hge];
    [|lia].
  assert (Hoff :
    (if start_origin && (0 =? 0)
     then (t <- Py.getitem (trans d) 0 ;; Ok (V3 (v0 t) (v1 t) 0%float))%py
     else Ok (V3 0 0 0)) = Ok offset).
  { subst offset. unfold origin_offset. destruct start_origin; cbn [andb Z.eqb].
    - change 0 with (Z.of_nat 0).
      rewrite (getitem_nth (trans d) (i := 0%nat) (V3 0 0 0)).
      + reflexivity.
      + rewrite (shaped_trans Hshaped). lia.
    - reflexivity. }
  rewrite Hoff.
  rewrite (@process_pose_at_Z _ d pelvis_position offset Hshaped) by lia.
  subst n. rewrite (frames_from_S Hs Hlt), track_S by assumption.
  destruct (@pose_loop_forward _ d start_origin s pelvis_position offset
              Hshaped Hs (S (List.length (poses d))) (0 + s) (1 + 1)
              (keyframe_insert
                 (frame_keys 1 (sample_at d (Z.to_nat 0)) offset
                    pelvis_position) (frame_set 1 sc)))
    as (Hret & Hkeys & Hmode & Hfps & Hend); [lia | right; lia | lia | nia |].
  rewrite Hret, Hkeys, Hmode, Hfps, Hend.
  cbn [keyframe_insert frame_set keyframes render_fps frame_end].
  rewrite <- app_assoc. repeat split; f_equal; lia.
Qed.

(** *** Assembly of records in the expected layout *)

Lemma is_batch_of_rows (k : nat) (a : rotvecs) :
  is_batch_of k a = true ->
  a = Batch (rotvec_rows a) /\ List.length (rotvec_rows a) = k.
Proof.
  destruct a as [v|rows]; simpl; [discriminate|].
  intros H. apply Nat.eqb_eq in H. now split.
Qed.

Lemma ToQuaternion_rows (a : rotvecs) :
  (a = Batch (rotvec_rows a) -> rotvec_rows a <> []) ->
  ToQuaternion a
  = Ok (match a with
        | Single v => QSingle (rotvec_to_quat v)
        | Batch rows => QBatch (map rotvec_to_quat rows)
        end).
Proof.
  intros H. destruct a as [v|rows].
  - reflexivity.
  - unfold ToQuaternion. cbn [Py.tuple2_truth Py.assert_ Py.bind].
    rewrite (@stack_Ok _ _ _ 4%nat).
    + reflexivity.
    + specialize (H eq_refl). simpl in H. destruct rows; [congruence|discriminate].
    + apply Forall_forall. reflexivity.
Qed.

Lemma assemble_well_shaped (r : npz) :
  well_shaped r = true -> assemble r = Ok (sample_of r).
Proof.
  unfold well_shaped. intros H.
  apply andb_prop in H as [H Hrh]. apply andb_prop in H as [H Hlh].
  apply andb_prop in H as [Hg Hb].
  apply is_batch_of_rows in Hg as [Eg Lg], Hb as [Eb Lb],
    Hlh as [El Ll], Hrh as [Er Lr].
  unfold assemble, sample_of.
  rewrite Eg, Eb, El, Er. cbn [Np.matmul rotvec_rows].
  rewrite !ToQuaternion_rows.
  - cbn [Py.bind Np.concatenate_flatten Np.reshape_rows4].
    now rewrite map_app.
  - cbn [rotvec_rows]. intros _ E. apply (f_equal (@List.length _)) in E.
    rewrite length_map, Lr in E. discriminate.
  - cbn [rotvec_rows]. intros _ E. apply (f_equal (@List.length _)) in E.
    rewrite length_map, Ll in E. discriminate.
  - cbn [rotvec_rows]. intros _ E. rewrite E in Lb. discriminate.
  - cbn [rotvec_rows]. intros _ E. rewrite E in Lg. discriminate.
Qed.

Lemma sample_of_lengths (r : npz) :
  well_shaped r = true ->
  List.length (a_pose (sample_of r)) = 22%nat
  /\ List.length (a_lhpose (sample_of r)) = 15%nat
  /\ List.length (a_rhpose (sample_of r)) = 15%nat.
Proof.
  unfold well_shaped. intros H.
  apply andb_prop in H as [H Hrh]. apply andb_prop in H as [H Hlh].
  apply andb_prop in H as [Hg Hb].
  apply is_batch_of_rows in Hg as [Eg Lg], Hb as [Eb Lb],
    Hlh as [El Ll], Hrh as [Er Lr].
  unfold sample_of. cbn [a_pose a_lhpose a_rhpose].
  rewrite !length_map, length_app. lia.
Qed.

Lemma assemble_all_well_shaped (frame_list : list npz) :
  Forall (fun r => well_shaped r = true) frame_list ->
  assemble_all frame_list = Ok (map sample_of frame_list).
Proof.
  induction 1 as [|r rest Hr _ IH]; [reflexivity|].
  cbn [assemble_all map]. rewrite (assemble_well_shaped _ Hr), IH.
  reflexivity.
Qed.

Lemma get_input_data_well_shaped (frame_list : list npz) :
  frame_list <> [] ->
  Forall (fun r => well_shaped r = true) frame_list ->
  get_input_data frame_list = Ok (input_of frame_list).
Proof.
  intros Hne Hall. unfold get_input_data.
  rewrite (assemble_all_well_shaped Hall). cbn [Py.bind].
  assert (Hne' : forall B (f : assembled -> B),
             map f (map sample_of frame_list) <> []).
  { intros B f E. destruct frame_list; [congruence|discriminate]. }
  rewrite (@stack_Ok _ _ _ 22%nat), (@stack_Ok _ _ _ 15%nat),
    (@stack_Ok _ _ _ 15%nat), (@stack_Ok _ _ _ 3%nat); try apply Hne'.
  - reflexivity.
  - apply Forall_forall. reflexivity.
  - rewrite map_map. apply Forall_map. eapply Forall_impl; [|exact Hall].
    intros r Hr. now apply sample_of_lengths.
  - rewrite map_map. apply Forall_map. eapply Forall_impl; [|exact Hall].
    intros r Hr. now apply sample_of_lengths.
  - rewrite map_map. apply Forall_map. eapply Forall_impl; [|exact Hall].
    intros r Hr. now apply sample_of_lengths.
Qed.

Lemma input_of_shaped (frame_list : list npz) :
  Forall (fun r => well_shaped r = true) frame_list ->
  shaped (input_of frame_list).
Proof.
  intros Hall. unfold input_of.
  constructor; cbn [poses lhposes rhposes trans];
    rewrite ?length_map; try reflexivity;
    rewrite map_map; apply Forall_map;
    (eapply Forall_impl; [|exact Hall]); intros r Hr;
    now apply sample_of_lengths.
Qed.

Lemma sample_at_input_of (frame_list : list npz) (i : nat) :
  (i < List.length frame_list)%nat ->
  sample_at (input_of frame_list) i = sample_of (nth i frame_list empty_npz).
Proof.
  intros Hi. unfold sample_at, input_of. cbn [poses lhposes rhposes trans].
  rewrite !map_map.
  rewrite (nth_indep _ [] (a_pose (sample_of empty_npz)))
    by (rewrite length_map; lia).
  rewrite (nth_indep (map (fun x => a_lhpose _) _) []
             (a_lhpose (sample_of empty_npz)))
    by (rewrite length_map; lia).
  rewrite (nth_indep (map (fun x => a_rhpose _) _) []
             (a_rhpose (sample_of empty_npz)))
    by (rewrite length_map; lia).
  rewrite (nth_indep (map (fun x => a_trans _) _) (V3 0 0 0)
             (a_trans (sample_of empty_npz)))
    by (rewrite length_map; lia).
  rewrite (map_nth (fun x => a_pose (sample_of x))),
    (map_nth (fun x => a_lhpose (sample_of x))),
    (map_nth (fun x => a_rhpose (sample_of x))),
    (map_nth (fun x => a_trans (sample_of x))).
  now destruct (sample_of (nth i frame_list empty_npz)).
Qed.

End Run.

Section Valid.

Context {RT : Runtime}.

Local Open Scope Z_scope.

Lemma sample_rate_of_pos (fps_source fps_target : Z) :
  0 < fps_source -> 0 < fps_target ->
  sample_rate_of fps_source fps_target
  = fps_source / Z.min fps_target fps_source
  /\ 1 <= sample_rate_of fps_source fps_target.
Proof.
  intros Hs Ht. unfold sample_rate_of.
  assert (E : (if fps_target >? fps_source then fps_source else fps_target)
              = Z.min fps_target fps_source).
  { destruct (Z.gtb_spec fps_target fps_source); lia. }
  rewrite E. rewrite Z.quot_div_nonneg by lia. split; [reflexivity|].
  apply Z.div_le_lower_bound; lia.
Qed.

Lemma frames_from_bound (n s : Z) (k : nat) :
  1 <= s -> (k < frames_from n s 0)%nat -> 0 <= Z.of_nat k * s < n.
Proof.
  intros Hs Hk. split; [nia|].
  destruct (Z.le_gt_cases n 0) as [Hn|Hn].
  - rewrite (frames_from_0 Hs) in Hk by lia. lia.
  - pose proof (@frames_from_ceil n s Hs ltac:(lia)) as Hc. cbn zeta in Hc.
    nia.
Qed.

Lemma track_input_of (frame_list : list npz) (pelvis_head : vec3)
  (start_origin : bool) (s : Z) :
  1 <= s ->
  track (input_of frame_list)
    (origin_offset start_origin (transl (hd empty_npz frame_list)))
    (Vector pelvis_head) s 0 1
    (frames_from (Z.of_nat (List.length frame_list)) s 0)
  = expected_track frame_list pelvis_head start_origin s.
Proof.
  intros Hs. unfold track, expected_track.
  rewrite !flat_map_concat_map. f_equal. apply map_ext_in.
  intros k Hk. apply in_seq in Hk.
  pose proof (@frames_from_bound (Z.of_nat (List.length frame_list)) s k
                Hs ltac:(lia)) as Hb.
  rewrite Z.add_0_l, sample_at_input_of by lia. reflexivity.
Qed.

(** A run of the model on records in the expected layout, at positive
    rates.  The statements that rest on it bound the rates and the
    number of records, so that the quotients are those of the script and
    Blender accepts the frame rate and the last frame. *)
Lemma process_poses_valid (frame_list : list npz) (pelvis_head : vec3)
  (fps_source fps_target : Z) (start_origin : bool) (sc : scene) :
  frame_list <> [] ->
  Forall (fun r => well_shaped r = true) frame_list ->
  0 < fps_source -> 0 < fps_target ->
  let s := sample_rate_of fps_source fps_target in
  let n := Z.of_nat (List.length frame_list) in
  let r := process_poses frame_list pelvis_head fps_source fps_target
             start_origin sc in
  snd r = Returned (1 + Z.of_nat (frames_from n s 0))
  /\ keyframes (fst r)
     = keyframes sc ++ expected_track frame_list pelvis_head start_origin s
  /\ object_mode (fst r) = OBJECT
  /\ render_fps (fst r) = Z.min fps_target fps_source
  /\ frame_end (fst r) = Z.quot n s.
Proof.
  intros Hne Hall Hfs Hft s n r.
  destruct (sample_rate_of_pos Hfs Hft) as [_ Hs]. fold s in Hs.
  subst r. unfold process_poses.
  rewrite (get_input_data_well_shaped Hne Hall).
  assert (Hfix : (if fps_target >? fps_source then fps_source else fps_target)
                 = Z.min fps_target fps_source)
    by (destruct (Z.gtb_spec fps_target fps_source); lia).
  unfold Py.int_truediv.
  destruct (Z.eqb_spec
              (if fps_target >? fps_source then fps_source else fps_target) 0)
    as [E|_]; [lia|].
  fold (sample_rate_of fps_source fps_target). fold s.
  destruct (Z.eqb_spec s 0) as [E|_]; [lia|].
  assert (Hlen : List.length (poses (input_of frame_list))
                 = List.length frame_list)
    by (unfold input_of; cbn [poses]; now rewrite !length_map).
  assert (Hpos : (1 <= List.length frame_list)%nat)
    by (destruct frame_list; [congruence | simpl; lia]).
  match goal with
  | |- context [pose_loop ?f ?d ?so ?st ?pv 0 1 ?o ?sc0] =>
      destruct (@pose_loop_run _ d so st pv sc0
                  (input_of_shaped Hall) Hs ltac:(lia))
        as (Hret & Hkeys & Hmode & Hfps & Hend)
  end.
  subst n. rewrite Hlen in *.
  rewrite Hret, Hkeys, Hmode, Hfps, Hend.
  cbn [mode_set set_frame_end set_render_fps keyframes render_fps frame_end].
  replace (nth 0 (trans (input_of frame_list)) (V3 0 0 0))
    with (transl (hd empty_npz frame_list))
    by (destruct frame_list; [congruence | reflexivity]).
  rewrite (track_input_of frame_list pelvis_head start_origin Hs).
  rewrite Hfix. repeat split.
Qed.

End Valid.

(** ** What one call of [process_pose] inserts *)

Section Keys.

Context {RT : Runtime}.

Lemma location_keys_app (a b : list keyframe) :
  location_keys (a ++ b) = location_keys a ++ location_keys b.
Proof. apply flat_map_app. Qed.

Lemma location_frames_app (a b : list keyframe) :
  location_frames (a ++ b) = location_frames a ++ location_frames b.
Proof. apply flat_map_app. Qed.

Lemma location_frames_keys (ks : list keyframe) :
  location_frames ks = map fst (location_keys ks).
Proof.
  induction ks as [|k ks IH]; [reflexivity|].
  destruct k; simpl; now rewrite IH.
Qed.

Lemma body_keys_location (frame : Z) (rows : list quat) :
  forall index, location_keys (body_keys frame index rows) = [].
Proof.
  induction rows as [|q rows IH]; intros index; [reflexivity|].
  cbn [body_keys]. rewrite location_keys_app, IH.
  now destruct (Nat.leb 22 index).
Qed.

Lemma hand_keys_location (names : list string) (frame : Z)
  (rows : list quat) :
  forall index, location_keys (hand_keys names frame index rows) = [].
Proof.
  induction rows as [|q rows IH]; intros index; [reflexivity|].
  cbn [hand_keys]. rewrite location_keys_app, IH.
  now destruct (Nat.leb 15 index).
Qed.

Lemma frame_keys_location (frame : Z) (a : assembled)
  (offset pelvis_position : vec3) :
  location_keys (frame_keys frame a offset pelvis_position)
  = [(frame, pelvis_location (Np.vsub (a_trans a) offset) pelvis_position)].
Proof.
  unfold frame_keys. cbn [location_keys flat_map].
  fold (location_keys
          (body_keys frame 0 (a_pose a)
           ++ hand_keys LHAND_JOINT_NAMES frame 0 (a_lhpose a)
           ++ hand_keys RHAND_JOINT_NAMES frame 0 (a_rhpose a))).
  now rewrite !location_keys_app, body_keys_location, !hand_keys_location.
Qed.

Lemma location_keys_flat_map {A} (f : A -> list keyframe) (l : list A) :
  location_keys (flat_map f l) = flat_map (fun a => location_keys (f a)) l.
Proof.
  induction l as [|a l IH]; [reflexivity|].
  cbn [flat_map]. now rewrite location_keys_app, IH.
Qed.

Lemma flat_map_singleton {A B} (f : A -> B) (l : list A) :
  flat_map (fun a => [f a]) l = map f l.
Proof. induction l as [|a l IH]; [reflexivity|]. simpl. now rewrite IH. Qed.

(** The root translations of the expected track. *)
Lemma expected_track_locations (frame_list : list npz) (pelvis_head : vec3)
  (start_origin : bool) (s : Z) :
  location_keys (expected_track frame_list pelvis_head start_origin s)
  = map (fun k =>
           ((1 + Z.of_nat k)%Z,
            pelvis_location
              (Np.vsub
                 (transl (nth (Z.to_nat (Z.of_nat k * s)) frame_list
                            empty_npz))
                 (origin_offset start_origin
                    (transl (hd empty_npz frame_list))))
              (Vector pelvis_head)))
      (seq 0 (frames_from (Z.of_nat (List.length frame_list)) s 0)).
Proof.
  unfold expected_track. rewrite location_keys_flat_map.
  rewrite <- flat_map_singleton. apply flat_map_ext. intros k.
  now rewrite frame_keys_location.
Qed.

(** What [process_pose] returns begins with the one location keyframe,
    at the frame of the call. *)
Lemma process_pose_location (frame : Z) (p l r : list quat)
  (t pelvis_position : vec3) (ks : list keyframe) :
  process_pose frame p l r t pelvis_position = Ok ks ->
  location_keys ks = [(frame, pelvis_location t pelvis_position)].
Proof.
  unfold process_pose, Np.reshape_k4.
  destruct (Nat.eqb (List.length p) 22); [|discriminate].
  destruct (Nat.eqb (List.length l) 15); [|discriminate].
  destruct (Nat.eqb (List.length r) 15); [|discriminate].
  cbn [Py.bind]. intros H. inversion H; subst; clear H.
  cbn [location_keys flat_map].
  fold (location_keys
          (body_keys frame 0 p
           ++ hand_keys LHAND_JOINT_NAMES frame 0 l
           ++ hand_keys RHAND_JOINT_NAMES frame 0 r)).
  now rewrite !location_keys_app, body_keys_location, !hand_keys_location.
Qed.

End Keys.

(** ** The frame resampler *)

Section Resampler.

Context {RT : Runtime}.

Local Open Scope Z_scope.

Lemma frames_from_zero_eq (n s : Z) :
  frames_from n s 0 = Z.to_nat ((n + s - 1) / s).
Proof. unfold frames_from. now rewrite Z.sub_0_r. Qed.

(** C1.  On a sequence of N >= 1 records and positive rates (integers
    in the range of a C int, which Blender requires of a frame rate and
    within which [int(a / b)] is the truncated exact quotient), the
    resampler runs at the effective rate min(fps_target, fps_source) with
    stride s = floor(fps_source / effective rate) >= 1; it takes exactly
    the source indices 0, s, 2s, ... below N, inserts the keyframes of
    one output frame per index, ceil(N / s) frames in all, and numbers
    them 1, 2, 3, ... without a gap.  The location of a frame is the one
    the bone holds after the assignment, with its first two components
    brought into the range of a single.  N is in the range of a C int as
    well, as [scene.frame_end] has to be. *)
Theorem resampler_frames (frame_list : list npz) (pelvis_head : vec3)
  (fps_source fps_target : Z) (start_origin : bool) (sc : scene) :
  frame_list <> [] ->
  Forall (fun r => well_shaped r = true) frame_list ->
  0 < fps_source <= INT_MAX -> 0 < fps_target <= INT_MAX ->
  Z.of_nat (List.length frame_list) <= INT_MAX ->
  let n := Z.of_nat (List.length frame_list) in
  let fps_eff := Z.min fps_target fps_source in
  let s := fps_source / fps_eff in
  let count := Z.to_nat ((n + s - 1) / s) in
  let r := process_poses frame_list pelvis_head fps_source fps_target
             start_origin sc in
  sample_rate_of fps_source fps_target = s
  /\ 1 <= s
  /\ (Z.of_nat count - 1) * s < n <= Z.of_nat count * s
  /\ (forall i, 0 <= i < n /\ (s | i)
                <-> exists k, (k < count)%nat /\ i = Z.of_nat k * s)
  /\ keyframes (fst r)
     = keyframes sc
       ++ flat_map
            (fun k => frame_keys (1 + Z.of_nat k)
                        (sample_of (nth (Z.to_nat (Z.of_nat k * s))
                                      frame_list empty_npz))
                        (origin_offset start_origin
                           (transl (hd empty_npz frame_list)))
                        (Vector pelvis_head))
            (seq 0 count)
  /\ location_frames (keyframes (fst r))
     = location_frames (keyframes sc)
       ++ map (fun k => 1 + Z.of_nat k) (seq 0 count)
  /\ List.length (map (fun k => 1 + Z.of_nat k) (seq 0 count)) = count.
Proof.
  intros Hne Hall [Hfs _] [Hft _] _ n fps_eff s count r.
  destruct (sample_rate_of_pos Hfs Hft) as [Hrate Hs].
  fold fps_eff in Hrate. fold s in Hrate. rewrite Hrate in Hs.
  destruct (@process_poses_valid _ frame_list pelvis_head fps_source
              fps_target start_origin sc Hne Hall Hfs Hft)
    as (_ & Hkeys & _).
  fold r in Hkeys. rewrite Hrate in Hkeys. fold n in Hkeys.
  assert (Hcount : frames_from n s 0 = count)
    by apply frames_from_zero_eq.
  pose proof (@frames_from_ceil n s Hs ltac:(lia)) as Hceil.
  cbn zeta in Hceil. rewrite Hcount in Hceil.
  split; [exact Hrate|]. split; [exact Hs|]. split; [exact Hceil|].
  split; [|split; [|split]].
  - intros i. split.
    + intros [Hi [q Hq]]. exists (Z.to_nat q). subst i.
      assert (0 <= q) by nia. rewrite Z2Nat.id by lia. split; [nia|reflexivity].
    + intros [k [Hk ->]]. rewrite <- Hcount in Hk.
      split; [exact (@frames_from_bound n s k Hs Hk)|]. now exists (Z.of_nat k).
  - rewrite Hkeys. unfold expected_track. fold n. now rewrite Hcount.
  - rewrite Hkeys, location_frames_app. f_equal.
    rewrite location_frames_keys, expected_track_locations, map_map.
    fold n. rewrite Hcount. reflexivity.
  - now rewrite length_map, length_seq.
Qed.

(** X2.  After a run on N >= 1 records in the expected layout, at
    positive rates, N and the rates in the range of a C int, the last
    frame of the scene is set to floor(N / s) while the frames keyed are
    1 to ceil(N / s): whenever the stride s does not divide N, the last
    frame keyed lies one past [scene.frame_end].  The scene is left in
    object mode. *)
Theorem scene_settings_after_run (frame_list : list npz) (pelvis_head : vec3)
  (fps_source fps_target : Z) (start_origin : bool) (sc : scene) :
  frame_list <> [] ->
  Forall (fun r => well_shaped r = true) frame_list ->
  0 < fps_source <= INT_MAX -> 0 < fps_target <= INT_MAX ->
  Z.of_nat (List.length frame_list) <= INT_MAX ->
  let n := Z.of_nat (List.length frame_list) in
  let s := fps_source / Z.min fps_target fps_source in
  let count := (n + s - 1) / s in
  let r := process_poses frame_list pelvis_head fps_source fps_target
             start_origin sc in
  frame_end (fst r) = n / s
  /\ location_frames (keyframes (fst r))
     = location_frames (keyframes sc)
       ++ map (fun k => 1 + Z.of_nat k) (seq 0 (Z.to_nat count))
  /\ (n mod s = 0 -> count = frame_end (fst r))
  /\ (n mod s <> 0 -> count = frame_end (fst r) + 1)
  /\ object_mode (fst r) = OBJECT.
Proof.
  intros Hne Hall [Hfs _] [Hft _] _ n s count r.
  destruct (sample_rate_of_pos Hfs Hft) as [Hrate Hs].
  destruct (@process_poses_valid _ frame_list pelvis_head fps_source
              fps_target start_origin sc Hne Hall Hfs Hft)
    as (_ & Hkeys & Hmode & _ & Hend).
  fold r in Hkeys, Hmode, Hend. rewrite Hrate in Hkeys, Hend, Hs.
  fold s n in Hkeys, Hend, Hs.
  assert (Hfe : frame_end (fst r) = n / s)
    by (rewrite Hend; apply Z.quot_div_nonneg; lia).
  assert (Hn : 1 <= n)
    by (subst n; destruct frame_list; [congruence | cbn [List.length]; lia]).
  pose proof (Z.div_mod n s ltac:(lia)) as Hdm.
  pose proof (Z.mod_pos_bound n s ltac:(lia)) as Hmod.
  split; [exact Hfe|]. split; [|split; [|split; [|exact Hmode]]].
  - rewrite Hkeys, location_frames_app. f_equal.
    rewrite location_frames_keys, expected_track_locations, map_map.
    fold n. rewrite frames_from_zero_eq. reflexivity.
  - intros H0. rewrite Hfe. subst count. symmetry.
    apply (Z.div_unique_pos (n + s - 1) s (n / s) (s - 1)); lia.
  - intros H1. rewrite Hfe. subst count. symmetry.
    apply (Z.div_unique_pos (n + s - 1) s (n / s + 1) (n mod s - 1)); lia.
Qed.

End Resampler.

(** ** Every run, whatever the input *)

Section AnyRun.

Context {RT : Runtime}.

Local Open Scope Z_scope.

(** Whatever the arrays, the stride and the fuel, the keyframes a loop
    adds are the results of successful calls of [process_pose] at
    consecutive frame numbers, and a loop that returns, returns the
    frame number after the last call. *)
Lemma pose_loop_calls (d : input_data) (start_origin : bool) (s : Z)
  (pelvis_position : vec3) (fuel : nat) :
  forall (i frame : Z) (offset : vec3) (sc : scene),
  exists kss : list (list keyframe),
    let r := pose_loop fuel d start_origin s pelvis_position i frame
               offset sc in
    keyframes (fst r) = keyframes sc ++ List.concat kss
    /\ (forall (j : nat) (ks : list keyframe),
           nth_error kss j = Some ks ->
           exists p l r t,
             process_pose (frame + Z.of_nat j) p l r t pelvis_position
             = Ok ks)
    /\ (forall f, snd r = Returned f ->
                  f = frame + Z.of_nat (List.length kss)).
Proof.
  induction fuel as [|fuel IH]; intros i frame offset sc.
  - exists []. cbn. rewrite app_nil_r. split; [reflexivity|].
    split; [intros [|j] ks; discriminate | discriminate].
  - rewrite pose_loop_S.
    destruct (i <? Z.of_nat (List.length (poses d))).
    2:{ exists []. cbn. rewrite app_nil_r. split; [reflexivity|].
        split; [intros [|j] ks; discriminate|].
        intros f H. inversion H. lia. }
    destruct (if start_origin && (i =? 0)
              then (t <- Py.getitem (trans d) i ;;
                    Ok (V3 (v0 t) (v1 t) 0%float))%py
              else Ok offset) as [offset'|e].
    2:{ exists []. cbn. rewrite app_nil_r. split; [reflexivity|].
        split; [intros [|j] ks; discriminate | discriminate]. }
    destruct (Py.getitem (poses d) i) as [p|e]; cbn [Py.bind].
    2:{ exists []. cbn. rewrite app_nil_r. split; [reflexivity|].
        split; [intros [|j] ks; discriminate | discriminate]. }
    destruct (Py.getitem (lhposes d) i) as [l|e]; cbn [Py.bind].
    2:{ exists []. cbn. rewrite app_nil_r. split; [reflexivity|].
        split; [intros [|j] ks; discriminate | discriminate]. }
    destruct (Py.getitem (rhposes d) i) as [r|e]; cbn [Py.bind].
    2:{ exists []. cbn. rewrite app_nil_r. split; [reflexivity|].
        split; [intros [|j] ks; discriminate | discriminate]. }
    destruct (Py.getitem (trans d) i) as [t|e]; cbn [Py.bind].
    2:{ exists []. cbn. rewrite app_nil_r. split; [reflexivity|].
        split; [intros [|j] ks; discriminate | discriminate]. }
    destruct (process_pose frame p l r (Np.vsub t offset') pelvis_position)
      as [ks|e] eqn:Hcall.
    2:{ exists []. cbn. rewrite app_nil_r. split; [reflexivity|].
        split; [intros [|j] ks; discriminate | discriminate]. }
    destruct (IH (i + s) (frame + 1) offset'
                (keyframe_insert ks (frame_set frame sc)))
      as (kss & Hkeys & Hcalls & Hret).
    exists (ks :: kss). cbn zeta in *. split; [|split].
    + rewrite Hkeys. cbn [keyframe_insert frame_set keyframes List.concat].
      now rewrite <- app_assoc.
    + intros [|j] ks' Hj.
      * inversion Hj; subst. rewrite Z.add_0_r. eauto.
      * destruct (Hcalls j ks' Hj) as (p' & l' & r' & t' & H').
        exists p', l', r', t'. rewrite <- H'. f_equal. lia.
    + intros f Hf. rewrite (Hret f Hf). cbn [List.length]. lia.
Qed.

(** The same for a whole run: the scene settings before the loop insert
    no keyframe. *)
Lemma process_poses_calls (frame_list : list npz) (pelvis_head : vec3)
  (fps_source fps_target : Z) (start_origin : bool) (sc : scene) :
  exists kss : list (list keyframe),
    let r := process_poses frame_list pelvis_head fps_source fps_target
               start_origin sc in
    keyframes (fst r) = keyframes sc ++ List.concat kss
    /\ (forall (j : nat) (ks : list keyframe),
           nth_error kss j = Some ks ->
           exists p l r t,
             process_pose (1 + Z.of_nat j) p l r t (Vector pelvis_head)
             = Ok ks)
    /\ (forall f, snd r = Returned f ->
                  f = 1 + Z.of_nat (List.length kss)).
Proof.
  unfold process_poses.
  assert (Hnone : forall sc' e,
             keyframes sc' = keyframes sc ->
             exists kss : list (list keyframe),
               let r := (sc', Raised e) in
               keyframes (fst r) = keyframes sc ++ List.concat kss
               /\ (forall (j : nat) (ks : list keyframe),
                      nth_error kss j = Some ks ->
                      exists p l r t,
                        process_pose (1 + Z.of_nat j) p l r t
                          (Vector pelvis_head) = Ok ks)
               /\ (forall f, snd r = Returned f ->
                             f = 1 + Z.of_nat (List.length kss))).
  { intros sc' e Hsc. exists []. cbn. rewrite app_nil_r.
    split; [exact Hsc|].
    split; [intros [|j] ks; discriminate | discriminate]. }
  destruct (get_input_data frame_list) as [d|e]; [|now apply Hnone].
  destruct (Py.int_truediv fps_source _) as [sample_rate|e];
    [|now apply Hnone].
  destruct (Py.int_truediv _ sample_rate) as [fe|e]; [|now apply Hnone].
  match goal with
  | |- context [pose_loop ?f ?d ?so ?st ?pv 0 1 ?o ?sc0] =>
      destruct (@pose_loop_calls d so st pv f 0 1 o sc0)
        as (kss & Hkeys & Hcalls & Hret)
  end.
  exists kss. cbn zeta in *. split; [|split]; assumption.
Qed.

(** Each successful call counts for one frame. *)
Lemma calls_location_frames (pelvis_position : vec3) (first : Z)
  (kss : list (list keyframe)) :
  (forall (j : nat) (ks : list keyframe),
      nth_error kss j = Some ks ->
      exists p l r t,
        process_pose (first + Z.of_nat j) p l r t pelvis_position = Ok ks) ->
  location_frames (List.concat kss)
  = map (fun j => first + Z.of_nat j) (seq 0 (List.length kss)).
Proof.
  revert first. induction kss as [|ks kss IH]; intros first Hcalls;
    [reflexivity|].
  cbn [List.concat List.length]. rewrite location_frames_app, <- cons_seq.
  cbn [map]. destruct (Hcalls 0%nat ks eq_refl) as (p & l & r & t & H0).
  rewrite (location_frames_keys ks), (process_pose_location _ _ _ _ _ _ H0).
  cbn [map fst app]. f_equal.
  rewrite (IH (first + 1)).
  - rewrite <- seq_shift, map_map. apply map_ext. intros j. lia.
  - intros j ks' Hj. destruct (Hcalls (S j) ks' Hj) as (p' & l' & r' & t' & H').
    exists p', l', r', t'. rewrite <- H'. f_equal. lia.
Qed.

End AnyRun.

(** ** Binary64 arithmetic with 0, 1 and -1 *)

Lemma is_finite_SF (x : float) :
  is_finite x = true ->
  (exists s, Prim2SF x = S754_zero s)
  \/ (exists s m e, Prim2SF x = S754_finite s m e).
Proof.
  unfold is_finite, is_nan, is_infinity.
  rewrite !eqb_spec, abs_spec.
  destruct (Prim2SF x) as [s|s| |s m e] eqn:E; intros H.
  - left; eauto.
  - exfalso. destruct s; vm_compute in H; discriminate.
  - exfalso. vm_compute in H. discriminate.
  - right; eauto.
Qed.

Lemma float_sub_diag (x : float) :
  is_finite x = true -> (x - x)%float = 0%float.
Proof.
  intros H. apply Prim2SF_inj. rewrite sub_spec. unfold SF64sub.
  destruct (is_finite_SF x H) as [[s E]|(s & m & e & E)]; rewrite E.
  - now destruct s.
  - cbn [SFsub]. rewrite Z.sub_diag. reflexivity.
Qed.


Lemma digits2_pos_shift52 (m : positive) :
  Zpos (digits2_pos (4503599627370496 * m)) = (Zpos (digits2_pos m) + 52)%Z.
Proof.
  cbn [Pos.mul digits2_pos]. rewrite !Pos2Z.inj_succ. lia.
Qed.

Lemma shr_52 (m : positive) :
  iter_pos shr_1 52 (Build_shr_record (Zpos (4503599627370496 * m)) false false)
  = Build_shr_record (Zpos m) false false.
Proof. reflexivity. Qed.

Lemma round_times_unit (s : bool) (m : positive) (e : Z) :
  bounded prec emax m e = true ->
  binary_round_aux prec emax s (Zpos (m * 4503599627370496)) (e + -52) loc_Exact
  = S754_finite s m e.
Proof.
  unfold bounded, canonical_mantissa. intros H.
  apply andb_prop in H as [Hc He]. apply Z.eqb_eq in Hc.
  rewrite Pos.mul_comm.
  unfold binary_round_aux, shr_fexp.
  cbn [Zdigits2]. rewrite digits2_pos_shift52.
  replace (Zpos (digits2_pos m) + 52 + (e + -52))%Z
    with (Zpos (digits2_pos m) + e)%Z by lia.
  rewrite Hc. replace (e - (e + -52))%Z with 52%Z by lia.
  cbn [shr_record_of_loc shr]. rewrite shr_52.
  cbn [shr_m loc_of_shr_record round_nearest_even Zdigits2 shr_record_of_loc].
  replace (e + -52 + 52)%Z with e by lia.
  rewrite Hc, Z.sub_diag. cbn [shr shr_m]. now rewrite He.
Qed.

Lemma is_finite_number (x : float) :
  is_finite x = true -> SFnumber (Prim2SF x).
Proof.
  intros H. destruct (is_finite_SF x H) as [[s E]|(s & m & e & E)];
    rewrite E; exact I.
Qed.

Lemma float_mul_one (x : float) :
  is_finite x = true -> (x * 1)%float = x.
Proof.
  intros H. apply Prim2SF_inj. rewrite mul_spec. unfold SF64mul.
  change (Prim2SF 1) with (S754_finite false 4503599627370496 (-52)).
  pose proof (Prim2SF_valid x) as Hv.
  destruct (is_finite_SF x H) as [[s E]|(s & m & e & E)]; rewrite E in *.
  - now destruct s.
  - cbn [SFmul]. rewrite round_times_unit by exact Hv. now destruct s.
Qed.

Lemma float_mul_minus_one (x : float) :
  is_finite x = true -> (x * (-1))%float = (- x)%float.
Proof.
  intros H. apply Prim2SF_inj. rewrite mul_spec, opp_spec. unfold SF64mul.
  change (Prim2SF (-1)) with (S754_finite true 4503599627370496 (-52)).
  pose proof (Prim2SF_valid x) as Hv.
  destruct (is_finite_SF x H) as [[s E]|(s & m & e & E)]; rewrite E in *.
  - now destruct s.
  - cbn [SFmul SFopp]. rewrite round_times_unit by exact Hv. now destruct s.
Qed.

Lemma float_mul_zero (x : float) :
  is_finite x = true -> exists s, Prim2SF (x * 0)%float = S754_zero s.
Proof.
  intros H. rewrite mul_spec. unfold SF64mul.
  change (Prim2SF 0) with (S754_zero false).
  destruct (is_finite_SF x H) as [[s E]|(s & m & e & E)]; rewrite E;
    cbn [SFmul]; eauto.
Qed.

Lemma SFadd_zero_r (a x : spec_float) (s : bool) :
  SFnumber x -> SFsame a x ->
  SFsame (SFadd prec emax a (S754_zero s)) x.
Proof.
  intros Hx [->|(s1 & s2 & -> & ->)].
  - destruct x as [s'| | |s' m e]; try contradiction.
    + right. destruct s', s; cbn; eauto.
    + left. reflexivity.
  - right. destruct s1, s; cbn; eauto.
Qed.

Lemma SFadd_zero_l (x : spec_float) (s : bool) :
  SFnumber x -> SFsame (SFadd prec emax (S754_zero s) x) x.
Proof.
  intros Hx. destruct x as [s'| | |s' m e]; try contradiction.
  - right. destruct s', s; cbn; eauto.
  - left. reflexivity.
Qed.

Lemma SFsame_eqb (a x : float) :
  SFnumber (Prim2SF x) -> SFsame (Prim2SF a) (Prim2SF x) ->
  (a =? x)%float = true.
Proof.
  rewrite eqb_spec. intros Hx [->|(s1 & s2 & -> & ->)]; [|reflexivity].
  destruct (Prim2SF x) as [s| | |s m e]; try contradiction; [reflexivity|].
  unfold SFeqb, SFcompare.
  rewrite Z.compare_refl, Pos.compare_cont_refl. now destruct s.
Qed.

Lemma SFopp_number a : SFnumber a -> SFnumber (SFopp a).
Proof. now destruct a. Qed.

(** A row times [fix_coor]: the first two components as numbers
    unchanged, the third negated. *)
Lemma row_matmul_fix_coor (x y z : float) :
  is_finite x = true -> is_finite y = true -> is_finite z = true ->
  let r := Np.row_matmul (V3 x y z) fix_coor in
  (v0 r =? x)%float = true
  /\ (v1 r =? y)%float = true
  /\ (v2 r =? - z)%float = true.
Proof.
  intros Hx Hy Hz. unfold Np.row_matmul, fix_coor.
  cbn [v0 v1 v2 row0 row1 row2].
  rewrite (float_mul_one x Hx), (float_mul_one y Hy),
    (float_mul_minus_one z Hz).
  destruct (float_mul_zero x Hx) as [sx Ex], (float_mul_zero y Hy) as [sy Ey],
    (float_mul_zero z Hz) as [sz Ez].
  pose proof (is_finite_number x Hx) as Nx.
  pose proof (is_finite_number y Hy) as Ny.
  pose proof (is_finite_number z Hz) as Nz.
  split; [|split].
  - apply SFsame_eqb; [exact Nx|].
    rewrite add_spec, Ez. apply SFadd_zero_r; [exact Nx|].
    rewrite add_spec, Ey. apply SFadd_zero_r; [exact Nx|]. now left.
  - apply SFsame_eqb; [exact Ny|].
    rewrite add_spec, Ez. apply SFadd_zero_r; [exact Ny|].
    rewrite add_spec, Ex. now apply SFadd_zero_l.
  - assert (Nz' : SFnumber (Prim2SF (- z)))
      by (rewrite opp_spec; now apply SFopp_number).
    apply SFsame_eqb; [exact Nz'|].
    rewrite add_spec, add_spec, Ex, Ey.
    assert (E : exists s, SF64add (S754_zero sx) (S754_zero sy) = S754_zero s)
      by (destruct sx, sy; cbn; eauto).
    destruct E as [s0 ->]. now apply SFadd_zero_l.
Qed.

(** ** Assembly, whatever the record *)

Section AssemblyFacts.

Context {RT : Runtime}.

Lemma ToQuaternion_inv (a : rotvecs) (q : quats) :
  ToQuaternion a = Ok q ->
  q = match a with
      | Single v => QSingle (rotvec_to_quat v)
      | Batch rows => QBatch (map rotvec_to_quat rows)
      end
  /\ rotvec_rows a <> [].
Proof.
  unfold ToQuaternion. cbn [Py.tuple2_truth Py.assert_ Py.bind].
  destruct a as [v|rows].
  - intros H; inversion H. split; [reflexivity | discriminate].
  - destruct (Np.stack _ _) as [res|e] eqn:E; [|discriminate].
    cbn [Py.bind]. intros H; inversion H; subst.
    apply stack_inv in E as (-> & Hne & _). split; [reflexivity|].
    cbn [rotvec_rows]. intros ->. now apply Hne.
Qed.

Lemma ToQuaternion_raises (a : rotvecs) (e : exn) :
  ToQuaternion a = Raise e -> e = ValueError.
Proof.
  unfold ToQuaternion. cbn [Py.tuple2_truth Py.assert_ Py.bind].
  destruct a as [v|rows]; [discriminate|].
  destruct rows as [|v rows]; cbn [map Np.stack Py.bind].
  - intros H; now inversion H.
  - destruct (forallb _ _); cbn [Py.bind]; [discriminate|].
    intros H; now inversion H.
Qed.

(** A record that assembles yields the sample [sample_of] describes. *)
Lemma assemble_inv (r : npz) (a : assembled) :
  assemble r = Ok a -> a = sample_of r.
Proof.
  unfold assemble. intros H.
  apply bind_Ok in H as (g & Hg & H). apply bind_Ok in H as (b & Hb & H).
  apply bind_Ok in H as (rot & Hrot & H).
  apply bind_Ok in H as (lq & Hl & H). apply bind_Ok in H as (rq & Hr & H).
  inversion H; subst; clear H. unfold sample_of.
  apply ToQuaternion_inv in Hg as [-> _], Hb as [-> _], Hl as [-> _],
    Hr as [-> _].
  destruct (global_orient r) as [vg|rg], (body_pose r) as [vb|rb];
    cbn in Hrot; inversion Hrot; subst; clear Hrot.
  - destruct (left_hand_pose r), (right_hand_pose r); reflexivity.
  - rewrite map_app.
    destruct (left_hand_pose r), (right_hand_pose r); reflexivity.
Qed.

Lemma assemble_raises (r : npz) (e : exn) :
  assemble r = Raise e -> e = ValueError.
Proof.
  unfold assemble.
  destruct (ToQuaternion (global_orient r)) as [g|e1] eqn:Hg; cbn [Py.bind];
    [|intros H; inversion H; subst; eapply ToQuaternion_raises; eauto].
  destruct (ToQuaternion (body_pose r)) as [b|e1] eqn:Hb; cbn [Py.bind];
    [|intros H; inversion H; subst; eapply ToQuaternion_raises; eauto].
  destruct (Np.concatenate_flatten g b) as [rot|e1] eqn:Hrot; cbn [Py.bind].
  2:{ intros H; inversion H; subst. destruct g, b; cbn in Hrot;
      now inversion Hrot. }
  destruct (ToQuaternion (Np.matmul (left_hand_pose r) fix_coor))
    as [lq|e1] eqn:Hl; cbn [Py.bind];
    [|intros H; inversion H; subst; eapply ToQuaternion_raises; eauto].
  destruct (ToQuaternion (Np.matmul (right_hand_pose r) fix_coor))
    as [rq|e1] eqn:Hr; cbn [Py.bind];
    [|intros H; inversion H; subst; eapply ToQuaternion_raises; eauto].
  discriminate.
Qed.

Lemma assemble_all_inv (frame_list : list npz) :
  forall l, assemble_all frame_list = Ok l -> l = map sample_of frame_list.
Proof.
  induction frame_list as [|r rest IH]; intros l H.
  - now inversion H.
  - cbn [assemble_all] in H.
    apply bind_Ok in H as (a & Ha & H). apply bind_Ok in H as (l' & Hl & H).
    inversion H; subst. cbn [map].
    now rewrite (assemble_inv _ Ha), (IH _ Hl).
Qed.

Lemma assemble_all_raises (frame_list : list npz) (e : exn) :
  assemble_all frame_list = Raise e -> e = ValueError.
Proof.
  induction frame_list as [|r rest IH]; [discriminate|].
  cbn [assemble_all].
  destruct (assemble r) as [a|e1] eqn:Ha; cbn [Py.bind];
    [|intros H; inversion H; subst; eapply assemble_raises; eauto].
  destruct (assemble_all rest) as [l|e1]; cbn [Py.bind]; [discriminate|].
  intros H; inversion H; subst. now apply IH.
Qed.

Lemma stack_raises {A} (size : A -> nat) (l : list A) (e : exn) :
  Np.stack size l = Raise e -> e = ValueError.
Proof.
  destruct l as [|a rest]; cbn [Np.stack].
  - intros H; now inversion H.
  - destruct (forallb _ _); [discriminate|]. intros H; now inversion H.
Qed.

(** The arrays of a sequence that assembles: those of [input_of], all
    rows of one array of one length, and at least one record. *)
Lemma get_input_data_inv (frame_list : list npz) (d : input_data) :
  get_input_data frame_list = Ok d ->
  d = input_of frame_list
  /\ frame_list <> []
  /\ Forall (fun r => List.length (a_pose (sample_of r))
                      = List.length (a_pose (sample_of
                                               (hd empty_npz frame_list))))
       frame_list
  /\ Forall (fun r => List.length (a_lhpose (sample_of r))
                      = List.length (a_lhpose (sample_of
                                                 (hd empty_npz frame_list))))
       frame_list
  /\ Forall (fun r => List.length (a_rhpose (sample_of r))
                      = List.length (a_rhpose (sample_of
                                                 (hd empty_npz frame_list))))
       frame_list.
Proof.
  unfold get_input_data. intros H.
  apply bind_Ok in H as (l & Hl & H). apply assemble_all_inv in Hl. subst l.
  apply bind_Ok in H as (p & Hp & H). apply bind_Ok in H as (lh & Hlh & H).
  apply bind_Ok in H as (rh & Hrh & H). apply bind_Ok in H as (t & Ht & H).
  inversion H; subst; clear H.
  apply stack_inv in Hp as (-> & Hne & Hp), Hlh as (-> & _ & Hlh),
    Hrh as (-> & _ & Hrh), Ht as (-> & _ & _).
  split; [reflexivity|].
  assert (Hne' : frame_list <> []) by (intros ->; now apply Hne).
  split; [exact Hne'|].
  destruct frame_list as [|r0 rest]; [congruence|].
  cbn [hd map] in *.
  rewrite !map_map in Hp, Hlh, Hrh.
  rewrite Forall_forall in Hp, Hlh, Hrh.
  repeat split; apply Forall_forall; intros r Hr.
  - apply (Hp (a_pose (sample_of r))).
    change (In (a_pose (sample_of r))
              (map (fun x => a_pose (sample_of x)) (r0 :: rest))).
    exact (in_map (fun x => a_pose (sample_of x)) _ _ Hr).
  - apply (Hlh (a_lhpose (sample_of r))).
    change (In (a_lhpose (sample_of r))
              (map (fun x => a_lhpose (sample_of x)) (r0 :: rest))).
    exact (in_map (fun x => a_lhpose (sample_of x)) _ _ Hr).
  - apply (Hrh (a_rhpose (sample_of r))).
    change (In (a_rhpose (sample_of r))
              (map (fun x => a_rhpose (sample_of x)) (r0 :: rest))).
    exact (in_map (fun x => a_rhpose (sample_of x)) _ _ Hr).
Qed.

Lemma get_input_data_raises (frame_list : list npz) (e : exn) :
  get_input_data frame_list = Raise e -> e = ValueError.
Proof.
  unfold get_input_data.
  destruct (assemble_all frame_list) as [l|e1] eqn:Hl; cbn [Py.bind];
    [|intros H; inversion H; subst; eapply assemble_all_raises; eauto].
  repeat match goal with
  | |- Py.bind (Np.stack ?f ?x) _ = Raise _ -> _ =>
      let E := fresh "E" in
      destruct (Np.stack f x) eqn:E; cbn [Py.bind];
      [|intros H; inversion H; subst; eapply stack_raises; eauto]
  end.
  discriminate.
Qed.

End AssemblyFacts.

(** ** The pose sample assembler *)

Section Assembler.

Context {RT : Runtime}.

(** C9.  For every record of a sequence that assembles, the axis-angle
    vectors of each hand are multiplied by the one matrix
    [fix_coor] = diag(1, 1, -1), the same for the left and the right
    hand, before the conversion to quaternions; on vectors of numbers
    the product negates the third component and keeps the other two.
    The body vectors are converted as they are, global orientation
    first, and the translation is passed on unchanged. *)
Theorem hands_mirrored_before_conversion (frame_list : list npz)
  (d : input_data) :
  get_input_data frame_list = Ok d ->
  fix_coor = M3 (V3 1 0 0) (V3 0 1 0) (V3 0 0 (-1))
  /\ lhposes d
     = map (fun r => map (fun v => rotvec_to_quat (Np.row_matmul v fix_coor))
                       (rotvec_rows (left_hand_pose r))) frame_list
  /\ rhposes d
     = map (fun r => map (fun v => rotvec_to_quat (Np.row_matmul v fix_coor))
                       (rotvec_rows (right_hand_pose r))) frame_list
  /\ (forall x y z : float,
         is_finite x = true -> is_finite y = true -> is_finite z = true ->
         let m := Np.row_matmul (V3 x y z) fix_coor in
         (v0 m =? x)%float = true /\ (v1 m =? y)%float = true
         /\ (v2 m =? - z)%float = true)
  /\ poses d
     = map (fun r => map rotvec_to_quat
                       (rotvec_rows (global_orient r)
                        ++ rotvec_rows (body_pose r))) frame_list
  /\ trans d = map transl frame_list.
Proof.
  intros H. apply get_input_data_inv in H as (-> & _).
  unfold input_of. cbn [poses lhposes rhposes trans]. rewrite !map_map.
  split; [reflexivity|].
  split; [apply map_ext; intros r; cbn [sample_of a_lhpose];
          now rewrite map_map|].
  split; [apply map_ext; intros r; cbn [sample_of a_rhpose];
          now rewrite map_map|].
  split; [exact row_matmul_fix_coor|].
  split; reflexivity.
Qed.

End Assembler.

(** ** The returned frame number *)

Section Returned.

Context {RT : Runtime}.

Local Open Scope Z_scope.

(** C10.  The value [process_poses] returns, which [__main__] prints as
    the number of poses processed, is the number of frames the run
    inserted plus one; a run on a non-empty sequence in the expected
    layout does return, when the rates are positive and they and the
    number of records are in the range of a C int. *)
Theorem poses_processed_is_frames_plus_one (frame_list : list npz)
  (pelvis_head : vec3) (fps_source fps_target : Z) (start_origin : bool)
  (sc : scene) :
  let r := process_poses frame_list pelvis_head fps_source fps_target
             start_origin sc in
  exists new : list keyframe,
    keyframes (fst r) = keyframes sc ++ new
    /\ (forall f, poses_processed r = Some f ->
                  f = Z.of_nat (List.length (location_frames new)) + 1)
    /\ (frame_list <> [] ->
        Forall (fun r => well_shaped r = true) frame_list ->
        0 < fps_source <= INT_MAX -> 0 < fps_target <= INT_MAX ->
        Z.of_nat (List.length frame_list) <= INT_MAX ->
        exists f, poses_processed r = Some f).
Proof.
  intros r.
  destruct (process_poses_calls frame_list pelvis_head fps_source fps_target
              start_origin sc) as (kss & Hkeys & Hcalls & Hret).
  cbn zeta in *. fold r in Hkeys, Hret.
  exists (List.concat kss). split; [exact Hkeys|]. split.
  - intros f Hf. unfold poses_processed in Hf.
    destruct (snd r) as [f'| |] eqn:E; try discriminate.
    inversion Hf; subst f'.
    rewrite (calls_location_frames _ _ _ Hcalls), length_map, length_seq.
    rewrite (Hret f eq_refl). lia.
  - intros Hne Hall [Hfs _] [Hft _] _.
    destruct (@process_poses_valid _ frame_list pelvis_head fps_source
                fps_target start_origin sc Hne Hall Hfs Hft) as (Hr & _).
    fold r in Hr. unfold poses_processed. rewrite Hr. eauto.
Qed.

End Returned.

(** ** The root translation *)

Section RootMotion.

Context {RT : Runtime}.

Local Open Scope Z_scope.

Lemma in_concat_nth {A} (x : A) (ls : list (list A)) :
  In x (List.concat ls) ->
  exists j l, nth_error ls j = Some l /\ In x l.
Proof.
  rewrite in_concat. intros (l & Hl & Hx).
  apply In_nth_error in Hl as [j Hj]. eauto.
Qed.

Lemma in_location_keys (bone : string) (frame : Z) (loc : vec3)
  (ks : list keyframe) :
  In (KeyLocation bone frame loc) ks -> In (frame, loc) (location_keys ks).
Proof.
  intros H. unfold location_keys. apply in_flat_map.
  exists (KeyLocation bone frame loc). split; [exact H | now left].
Qed.

(** C4.  In every run, on every input, each root translation inserted
    has as its third component 0 minus the third component of the bind
    position of the pelvis, in the single precision of mathutils: one
    value for all frames, in which no source translation takes part. *)
Theorem vertical_root_locked (frame_list : list npz) (pelvis_head : vec3)
  (fps_source fps_target : Z) (start_origin : bool) (sc : scene) :
  let r := process_poses frame_list pelvis_head fps_source fps_target
             start_origin sc in
  let pelvis_position := Vector pelvis_head in
  exists new : list keyframe,
    keyframes (fst r) = keyframes sc ++ new
    /\ forall bone frame location,
         In (KeyLocation bone frame location) new ->
         v2 location = f32 (f32 0 - v2 pelvis_position)%float.
Proof.
  intros r pelvis_position.
  destruct (process_poses_calls frame_list pelvis_head fps_source fps_target
              start_origin sc) as (kss & Hkeys & Hcalls & _).
  cbn zeta in *. fold r in Hkeys.
  exists (List.concat kss). split; [exact Hkeys|].
  intros bone frame location Hin.
  apply in_concat_nth in Hin as (j & ks & Hj & Hin).
  destruct (Hcalls j ks Hj) as (p & l & r' & t & Hcall).
  apply in_location_keys in Hin.
  rewrite (process_pose_location _ _ _ _ _ _ Hcall) in Hin.
  destruct Hin as [Hin|[]]. inversion Hin; subst. reflexivity.
Qed.

(** C3.  With origin centering, the offset is (t0.x, t0.y, 0) for the
    translation t0 of source index 0, the first index selected; every
    frame, the first included, has this one offset subtracted from its
    translation, so that the horizontal translation of the first frame,
    before the bind position is subtracted, is (0, 0) when t0.x and t0.y
    are numbers, and that of a later frame is its own minus (t0.x, t0.y).
    Without origin centering the offset subtracted is (0, 0, 0).  The
    rates are positive integers in the range of a C int, and so is N; the
    location keyed is the difference with the bind position as the bone
    holds it, its first two components brought into the range of a
    single. *)
Theorem origin_centering (frame_list : list npz) (pelvis_head : vec3)
  (fps_source fps_target : Z) (start_origin : bool) (sc : scene) :
  frame_list <> [] ->
  Forall (fun r => well_shaped r = true) frame_list ->
  0 < fps_source <= INT_MAX -> 0 < fps_target <= INT_MAX ->
  Z.of_nat (List.length frame_list) <= INT_MAX ->
  let t0 := transl (hd empty_npz frame_list) in
  let offset :=
    if start_origin then V3 (v0 t0) (v1 t0) 0 else V3 0 0 0 in
  let s := sample_rate_of fps_source fps_target in
  let count := frames_from (Z.of_nat (List.length frame_list)) s 0 in
  let r := process_poses frame_list pelvis_head fps_source fps_target
             start_origin sc in
  exists new : list keyframe,
    keyframes (fst r) = keyframes sc ++ new
    /\ location_keys new
       = map (fun k =>
                let t := transl (nth (Z.to_nat (Z.of_nat k * s)) frame_list
                                   empty_npz) in
                (1 + Z.of_nat k,
                 location_set
                   (Vector_sub
                      (Vector (V3 (v0 t - v0 offset) (v1 t - v1 offset) 0))
                      (Vector pelvis_head))))
           (seq 0 count)
    /\ (1 <= count)%nat
    /\ (start_origin = true ->
        is_finite (v0 t0) = true -> is_finite (v1 t0) = true ->
        hd_error (location_keys new)
        = Some (1, location_set
                     (Vector_sub (Vector (V3 0 0 0)) (Vector pelvis_head)))).
Proof.
  intros Hne Hall [Hfs _] [Hft _] _ t0 offset s count r.
  destruct (@process_poses_valid _ frame_list pelvis_head fps_source
              fps_target start_origin sc Hne Hall Hfs Hft)
    as (_ & Hkeys & _).
  fold r s in Hkeys.
  destruct (sample_rate_of_pos Hfs Hft) as [_ Hs]. fold s in Hs.
  exists (expected_track frame_list pelvis_head start_origin s).
  assert (Hloc :
    location_keys (expected_track frame_list pelvis_head start_origin s)
    = map (fun k =>
             let t := transl (nth (Z.to_nat (Z.of_nat k * s)) frame_list
                                empty_npz) in
             (1 + Z.of_nat k,
              location_set
                (Vector_sub
                   (Vector (V3 (v0 t - v0 offset) (v1 t - v1 offset) 0))
                   (Vector pelvis_head))))
        (seq 0 count)).
  { rewrite expected_track_locations. apply map_ext. intros k. reflexivity. }
  assert (Hcount : exists c, count = S c).
  { subst count.
    destruct frame_list as [|r0 rest]; [congruence|].
    rewrite (@frames_from_S _ s 0 Hs) by (cbn [List.length]; lia). eauto. }
  destruct Hcount as [c Hc].
  split; [exact Hkeys|]. split; [exact Hloc|]. split; [lia|].
  intros -> Hx Hy. rewrite Hloc, Hc, <- cons_seq. cbn [map hd_error].
  rewrite Z.mul_0_l. cbn [Z.to_nat Z.of_nat Z.add].
  replace (nth 0 frame_list empty_npz) with (hd empty_npz frame_list)
    by (destruct frame_list; [congruence | reflexivity]).
  fold t0. subst offset. cbn [v0 v1].
  now rewrite (float_sub_diag _ Hx), (float_sub_diag _ Hy).
Qed.

End RootMotion.

(** ** The orientation corrector *)

Section Orientation.

Context {RT : Runtime}.

Local Open Scope Z_scope.

Lemma skipn_cons_nth {A} (d : A) (l : list A) :
  forall i, (i < List.length l)%nat ->
            skipn i l = nth i l d :: skipn (S i) l.
Proof.
  induction l as [|a l IH]; intros i Hi; [simpl in Hi; lia|].
  destruct i as [|i]; [reflexivity|].
  cbn [skipn nth]. apply IH. simpl in Hi. lia.
Qed.

Lemma keyed_nil (names : list string) (frame : Z) :
  keyed names frame [] = [].
Proof. unfold keyed. now rewrite combine_nil. Qed.

Lemma hand_keys_keyed (names : list string) (frame : Z)
  (rows : list quat) :
  forall index,
    (index + List.length rows <= 15)%nat ->
    (index + List.length rows <= List.length names)%nat ->
    hand_keys names frame index rows
    = keyed (skipn index names) frame (map Quaternion rows).
Proof.
  induction rows as [|q rows IH]; intros index H15 Hn.
  - cbn [hand_keys map]. now rewrite keyed_nil.
  - cbn [List.length] in H15, Hn. cbn [hand_keys map].
    destruct (Nat.leb_spec 15 index) as [Hge|_]; [lia|].
    rewrite (skipn_cons_nth EmptyString names (i := index)) by lia.
    rewrite IH by lia. reflexivity.
Qed.

Lemma body_keys_keyed (frame : Z) (rows : list quat) :
  forall index,
    (1 <= index)%nat -> (index + List.length rows <= 22)%nat ->
    body_keys frame index rows
    = keyed (skipn index BODY_JOINT_NAMES) frame (map Quaternion rows).
Proof.
  induction rows as [|q rows IH]; intros index H1 H22.
  - cbn [body_keys map]. now rewrite keyed_nil.
  - cbn [List.length] in H22. cbn [body_keys map].
    destruct (Nat.leb_spec 22 index) as [Hge|_]; [lia|].
    destruct (Nat.eqb_spec index 0) as [E|_]; [lia|].
    rewrite (skipn_cons_nth EmptyString BODY_JOINT_NAMES (i := index))
      by (change (List.length BODY_JOINT_NAMES) with 22%nat; lia).
    rewrite IH by lia. reflexivity.
Qed.






(** mathutils keeps single-precision numbers, and a quaternion read from
    it and handed back is stored as it was. *)
Hypothesis Quaternion_to_quaternion :
  forall m, Quaternion (to_quaternion m) = to_quaternion m.



End Orientation.

(** ** Termination *)

Section Termination.

Context {RT : Runtime}.

Local Open Scope Z_scope.

Lemma getitem_range {A} (a : list A) (i : Z) (x : A) :
  Py.getitem a i = Ok x ->
  - Z.of_nat (List.length a) <= i < Z.of_nat (List.length a).
Proof.
  unfold Py.getitem. cbn zeta.
  destruct (Z.ltb_spec i 0) as [Hneg|Hpos].
  - destruct (Z.leb_spec 0 (i + Z.of_nat (List.length a)));
      destruct (Z.ltb_spec (i + Z.of_nat (List.length a))
                  (Z.of_nat (List.length a)));
      cbn [andb]; try discriminate; intros _; lia.
  - destruct (Z.leb_spec 0 i);
      destruct (Z.ltb_spec i (Z.of_nat (List.length a)));
      cbn [andb]; try discriminate; intros _; lia.
Qed.

(** A loop with a positive stride ends within the fuel
    [process_poses] gives it. *)
Lemma pose_loop_ends_forward (d : input_data) (start_origin : bool)
  (s : Z) (pelvis_position : vec3) (fuel : nat) :
  1 <= s ->
  forall (i frame : Z) (offset : vec3) (sc : scene),
    (1 <= fuel)%nat ->
    Z.of_nat (List.length (poses d)) <= i + (Z.of_nat fuel - 1) * s ->
    snd (pose_loop fuel d start_origin s pelvis_position i frame offset sc)
    <> OutOfFuel.
Proof.
  intros Hs. induction fuel as [|fuel IH];
    intros i frame offset sc Hfuel Hbound; [lia|].
  rewrite pose_loop_S.
  destruct (Z.ltb_spec i (Z.of_nat (List.length (poses d)))) as [Hlt|Hge];
    [|discriminate].
  destruct (if start_origin && (i =? 0) then _ else _) as [offset'|e];
    [|discriminate].
  destruct (Py.bind _ _) as [ks|e]; [|discriminate].
  apply IH; nia.
Qed.

(** And so does one with a negative stride: the index runs off the
    front of the array. *)
Lemma pose_loop_ends_backward (d : input_data) (start_origin : bool)
  (s : Z) (pelvis_position : vec3) (fuel : nat) :
  s <= -1 ->
  forall (i frame : Z) (offset : vec3) (sc : scene),
    (1 <= fuel)%nat ->
    i + Z.of_nat (List.length (poses d)) + 1 < Z.of_nat fuel ->
    snd (pose_loop fuel d start_origin s pelvis_position i frame offset sc)
    <> OutOfFuel.
Proof.
  intros Hs. induction fuel as [|fuel IH];
    intros i frame offset sc Hfuel Hbound; [lia|].
  rewrite pose_loop_S.
  destruct (Z.ltb_spec i (Z.of_nat (List.length (poses d)))) as [Hlt|Hge];
    [|discriminate].
  destruct (if start_origin && (i =? 0) then _ else _) as [offset'|e];
    [|discriminate].
  destruct (Py.getitem (poses d) i) as [p|e] eqn:Hp; cbn [Py.bind];
    [|discriminate].
  apply getitem_range in Hp.
  destruct (Py.bind _ _) as [ks|e]; [|discriminate].
  apply IH; lia.
Qed.

(** X1.  Every run of [process_poses] ends: it returns or raises, on every
    input and at every pair of rates.  The loop cannot spin, since a
    stride of zero is caught by the division that computes the last
    frame; so the fuel of the model is never used up. *)
Theorem process_poses_ends (frame_list : list npz) (pelvis_head : vec3)
  (fps_source fps_target : Z) (start_origin : bool) (sc : scene) :
  snd (process_poses frame_list pelvis_head fps_source fps_target
         start_origin sc) <> OutOfFuel.
Proof.
  unfold process_poses.
  destruct (get_input_data frame_list) as [d|e]; [|discriminate].
  destruct (Py.int_truediv fps_source _) as [s|e]; [|discriminate].
  unfold Py.int_truediv.
  destruct (Z.eqb_spec s 0) as [E|Hs]; [discriminate|].
  destruct (Z.le_gt_cases 1 s) as [Hpos|Hneg].
  - apply pose_loop_ends_forward; [assumption | lia | nia].
  - apply pose_loop_ends_backward; lia.
Qed.

End Termination.

(** ** Records of another shape *)

Section Shapes.

Context {RT : Runtime}.

Local Open Scope Z_scope.

Lemma rotvec_rows_length (a : rotvecs) :
  List.length (rotvec_rows a) = joint_count a.
Proof. now destruct a. Qed.

Lemma sample_of_joint_counts (r : npz) :
  List.length (a_pose (sample_of r))
  = (joint_count (global_orient r) + joint_count (body_pose r))%nat
  /\ List.length (a_lhpose (sample_of r)) = joint_count (left_hand_pose r)
  /\ List.length (a_rhpose (sample_of r)) = joint_count (right_hand_pose r).
Proof.
  unfold sample_of. cbn [a_pose a_lhpose a_rhpose].
  now rewrite !length_map, length_app, !rotvec_rows_length.
Qed.

Lemma getitem_0 {A} (a : A) (l : list A) : Py.getitem (a :: l) 0 = Ok a.
Proof.
  exact (@getitem_nth _ (a :: l) 0%nat a ltac:(cbn [List.length]; lia)).
Qed.

Lemma process_pose_mismatch (frame : Z) (p l r : list quat)
  (t pelvis_position : vec3) :
  List.length p <> 22%nat \/ List.length l <> 15%nat
  \/ List.length r <> 15%nat ->
  process_pose frame p l r t pelvis_position = Raise ValueError.
Proof.
  intros H. unfold process_pose, Np.reshape_k4.
  destruct (Nat.eqb_spec (List.length p) 22); [|reflexivity].
  destruct (Nat.eqb_spec (List.length l) 15); [|reflexivity].
  destruct (Nat.eqb_spec (List.length r) 15); [|reflexivity].
  exfalso. destruct H as [H|[H|H]]; contradiction.
Qed.

(** C6, as the script has it.  When some record of the sequence has a
    number of body joints (global orientation included) other than 22,
    or a number of joints of a hand other than 15, a run at positive
    rates in the range of a C int (as is the number of records) raises
    numpy's ValueError and inserts no keyframe, whichever record it is.  Where the error is raised
    depends on the sequence.  If [get_input_data] returns, it has
    converted every joint of every record, and the error comes from the
    reshape of the first call of [process_pose], in the loop, after the
    frame rate, the last frame, the pose mode and frame 1 of the scene
    have been set.  If not, the error is raised in [get_input_data],
    where numpy does not convert or stack the arrays, and the scene is
    as it was. *)
Theorem shape_mismatch_aborts (frame_list : list npz) (pelvis_head : vec3)
  (fps_source fps_target : Z) (start_origin : bool) (sc : scene)
  (bad : npz) :
  In bad frame_list ->
  (joint_count (global_orient bad) + joint_count (body_pose bad) <> 22)%nat
  \/ joint_count (left_hand_pose bad) <> 15%nat
  \/ joint_count (right_hand_pose bad) <> 15%nat ->
  0 < fps_source <= INT_MAX -> 0 < fps_target <= INT_MAX ->
  Z.of_nat (List.length frame_list) <= INT_MAX ->
  let r := process_poses frame_list pelvis_head fps_source fps_target
             start_origin sc in
  keyframes (fst r) = keyframes sc
  /\ snd r = Raised ValueError
  /\ (forall d, get_input_data frame_list = Ok d ->
        d = input_of frame_list
        /\ fst r
           = frame_set 1
               (mode_set POSE
                  (mode_set EDIT
                     (set_frame_end
                        (Z.quot (Z.of_nat (List.length frame_list))
                           (sample_rate_of fps_source fps_target))
                        (set_render_fps (Z.min fps_target fps_source) sc)))))
  /\ (forall e, get_input_data frame_list = Raise e -> fst r = sc).
Proof.
  intros Hin Hbad [Hfs _] [Hft _] _ r. subst r. unfold process_poses.
  destruct (get_input_data frame_list) as [d|e] eqn:E.
  2:{ apply get_input_data_raises in E. subst e. cbn [fst snd].
      split; [reflexivity|]. split; [reflexivity|].
      split; [discriminate | reflexivity]. }
  apply get_input_data_inv in E as (-> & Hne & Hp & Hl & Hr).
  rewrite Forall_forall in Hp, Hl, Hr.
  specialize (Hp bad Hin). specialize (Hl bad Hin). specialize (Hr bad Hin).
  destruct (sample_of_joint_counts bad) as (Cp & Cl & Cr).
  rewrite Cp in Hp. rewrite Cl in Hl. rewrite Cr in Hr.
  assert (Hfix : (if fps_target >? fps_source then fps_source else fps_target)
                 = Z.min fps_target fps_source)
    by (destruct (Z.gtb_spec fps_target fps_source); lia).
  destruct (sample_rate_of_pos Hfs Hft) as [_ Hs].
  unfold Py.int_truediv.
  destruct (Z.eqb_spec
              (if fps_target >? fps_source then fps_source else fps_target) 0)
    as [E0|E0]; [lia|].
  fold (sample_rate_of fps_source fps_target).
  destruct (Z.eqb_spec (sample_rate_of fps_source fps_target) 0) as [E1|E1];
    [lia|].
  rewrite pose_loop_S.
  assert (Hlen : List.length (poses (input_of frame_list))
                 = List.length frame_list)
    by (unfold input_of; cbn [poses]; now rewrite !length_map).
  rewrite Hlen, Hfix.
  destruct frame_list as [|r0 rest]; [congruence|].
  cbn [hd] in Hp, Hl, Hr.
  destruct (Z.ltb_spec 0 (Z.of_nat (List.length (r0 :: rest))))
    as [_|Hge]; [|cbn [List.length] in Hge; lia].
  change (poses (input_of (r0 :: rest)))
    with (a_pose (sample_of r0) :: map a_pose (map sample_of rest)).
  change (lhposes (input_of (r0 :: rest)))
    with (a_lhpose (sample_of r0) :: map a_lhpose (map sample_of rest)).
  change (rhposes (input_of (r0 :: rest)))
    with (a_rhpose (sample_of r0) :: map a_rhpose (map sample_of rest)).
  change (trans (input_of (r0 :: rest)))
    with (a_trans (sample_of r0) :: map a_trans (map sample_of rest)).
  rewrite !getitem_0. cbn [Py.bind].
  assert (Hraise :
    forall offset,
      process_pose 1 (a_pose (sample_of r0)) (a_lhpose (sample_of r0))
        (a_rhpose (sample_of r0)) (Np.vsub (a_trans (sample_of r0)) offset)
        (Vector pelvis_head) = Raise ValueError).
  { intros offset. apply process_pose_mismatch.
    rewrite <- Hp, <- Hl, <- Hr. exact Hbad. }
  destruct start_origin; cbn [andb Z.eqb]; rewrite Hraise; cbn [fst snd];
    (split; [reflexivity|]); (split; [reflexivity|]);
    (split; [|discriminate]); intros d Hd; inversion Hd; subst d;
    (split; reflexivity).
Qed.

End Shapes.

(** ** Vectors that are not numbers, and rates that are not positive *)

Lemma is_nan_SF (x : float) : is_nan x = true -> Prim2SF x = S754_nan.
Proof.
  unfold is_nan. rewrite eqb_spec.
  destruct (Prim2SF x) as [s|s| |s m e]; try reflexivity.
  - discriminate.
  - now destruct s.
  - unfold SFeqb, SFcompare.
    rewrite Z.compare_refl, Pos.compare_cont_refl. now destruct s.
Qed.

(** The norm of a vector with a NaN component is NaN, and [0 < NaN] is
    false. *)
Lemma norm_nan (v : vec3) :
  has_nan v = true -> (0 <? Np.norm v)%float = false.
Proof.
  unfold has_nan. intros H.
  assert (E : Prim2SF (Np.norm v) = S754_nan).
  { unfold Np.norm, Np.dot3.
    rewrite sqrt_spec, add_spec, add_spec, !mul_spec.
    apply orb_prop in H as [H|H]; [apply orb_prop in H as [H|H]|];
      apply is_nan_SF in H; rewrite H;
      unfold SF64sqrt, SF64add, SF64mul; cbn [SFmul].
    - reflexivity.
    - match goal with
      | |- context [SFadd _ _ ?a S754_nan] => now destruct a
      end.
    - match goal with
      | |- context [SFadd _ _ ?a S754_nan] => now destruct a
      end. }
  rewrite ltb_spec, E. reflexivity.
Qed.

Section NoValidation.

Context {RT : Runtime}.

Local Open Scope Z_scope.

(** C7, as the script has it.  No rotation vector is rejected: the
    conversion of a vector, finite or not, returns the quaternion of the
    matrix [Rodrigues] builds, on the single-vector path and for every
    row of a batch; a vector with a NaN component is not normalised and
    goes through the same formula as the zero vector.  The one error
    [ToQuaternion] can raise is numpy's ValueError for a batch without
    rows. *)
Theorem rotvec_never_rejected :
  (forall v, ToQuaternion (Single v)
             = Ok (QSingle (to_quaternion (Rodrigues v))))
  /\ (forall v rows,
         ToQuaternion (Batch (v :: rows))
         = Ok (QBatch (map (fun u => to_quaternion (Rodrigues u))
                         (v :: rows))))
  /\ (forall v, has_nan v = true ->
         Rodrigues v
         = Np.madd
             (Np.madd (Np.mscale (cos (Np.norm v)) Np.eye3)
                (Np.full ((1 - cos (Np.norm v)) * Np.dot3 v v)%float))
             (Np.mscale (sin (Np.norm v)) (skew v)))
  /\ ToQuaternion (Batch []) = Raise ValueError.
Proof.
  split; [reflexivity|]. split; [|split; [|reflexivity]].
  - intros v rows.
    rewrite (@ToQuaternion_rows _ (Batch (v :: rows))); [reflexivity|].
    discriminate.
  - intros v H. unfold Rodrigues. now rewrite (norm_nan v H).
Qed.

(** A run on records in the expected layout whose stride is at least
    one, whatever the signs of the rates. *)
Lemma process_poses_stride (frame_list : list npz) (pelvis_head : vec3)
  (fps_source fps_target : Z) (start_origin : bool) (sc : scene) :
  frame_list <> [] ->
  Forall (fun r => well_shaped r = true) frame_list ->
  (if fps_target >? fps_source then fps_source else fps_target) <> 0 ->
  1 <= sample_rate_of fps_source fps_target ->
  let s := sample_rate_of fps_source fps_target in
  let n := Z.of_nat (List.length frame_list) in
  let r := process_poses frame_list pelvis_head fps_source fps_target
             start_origin sc in
  snd r = Returned (1 + Z.of_nat (frames_from n s 0))
  /\ keyframes (fst r)
     = keyframes sc ++ expected_track frame_list pelvis_head start_origin s.
Proof.
  intros Hne Hall Heff Hs s n r. fold s in Hs.
  subst r. unfold process_poses.
  rewrite (get_input_data_well_shaped Hne Hall).
  unfold Py.int_truediv.
  destruct (Z.eqb_spec
              (if fps_target >? fps_source then fps_source else fps_target) 0)
    as [E|_]; [contradiction|].
  fold (sample_rate_of fps_source fps_target). fold s.
  destruct (Z.eqb_spec s 0) as [E|_]; [lia|].
  assert (Hlen : List.length (poses (input_of frame_list))
                 = List.length frame_list)
    by (unfold input_of; cbn [poses]; now rewrite !length_map).
  assert (Hpos : (1 <= List.length frame_list)%nat)
    by (destruct frame_list; [congruence | simpl; lia]).
  match goal with
  | |- context [pose_loop ?f ?d ?so ?st ?pv 0 1 ?o ?sc0] =>
      destruct (@pose_loop_run _ d so st pv sc0
                  (input_of_shaped Hall) Hs ltac:(lia))
        as (Hret & Hkeys & _)
  end.
  subst n. rewrite Hlen in *.
  rewrite Hret, Hkeys.
  cbn [mode_set set_frame_end set_render_fps keyframes].
  replace (nth 0 (trans (input_of frame_list)) (V3 0 0 0))
    with (transl (hd empty_npz frame_list))
    by (destruct frame_list; [congruence | reflexivity]).
  rewrite (track_input_of frame_list pelvis_head start_origin Hs).
  split; reflexivity.
Qed.

(** C8, as the script has it.  The rates are not checked; they are taken
    in the range of a C int, outside of which Blender refuses the frame
    rate.  When the effective rate min(fps_target, fps_source) is zero,
    or the stride computed from it is zero, a sequence that assembles
    fails with ZeroDivisionError where the stride or the last frame is
    computed: after the frame rate of the scene is set, before the loop,
    and without a keyframe.  A rate that is not positive is not rejected
    for that: with a negative source rate and a target rate not below
    it, the target is clamped to the source rate, the stride is 1, and a
    sequence in the expected layout (of a length in the range of a C int)
    is keyed record by record. *)
Theorem zero_rate_raises (frame_list : list npz) (pelvis_head : vec3)
  (fps_source fps_target : Z) (start_origin : bool) (sc : scene) :
  INT_MIN <= fps_source <= INT_MAX -> INT_MIN <= fps_target <= INT_MAX ->
  let fps_eff := Z.min fps_target fps_source in
  let r := process_poses frame_list pelvis_head fps_source fps_target
             start_origin sc in
  (forall d : input_data,
      get_input_data frame_list = Ok d ->
      fps_eff = 0 \/ Z.quot fps_source fps_eff = 0 ->
      r = (set_render_fps fps_eff sc, Raised ZeroDivisionError))
  /\ (fps_source < 0 -> fps_source <= fps_target ->
      frame_list <> [] ->
      Forall (fun r => well_shaped r = true) frame_list ->
      Z.of_nat (List.length frame_list) <= INT_MAX ->
      sample_rate_of fps_source fps_target = 1
      /\ snd r = Returned (1 + Z.of_nat (List.length frame_list))
      /\ keyframes (fst r)
         = keyframes sc
           ++ expected_track frame_list pelvis_head start_origin 1).
Proof.
  intros _ _ fps_eff r.
  assert (Hfix : (if fps_target >? fps_source then fps_source else fps_target)
                 = fps_eff)
    by (subst fps_eff; destruct (Z.gtb_spec fps_target fps_source); lia).
  split.
  - intros d Hd Hzero. subst r. unfold process_poses. rewrite Hd.
    rewrite Hfix. unfold Py.int_truediv.
    destruct (Z.eqb_spec fps_eff 0) as [E|E]; [reflexivity|].
    destruct Hzero as [Hz|Hz]; [contradiction|].
    rewrite Hz. reflexivity.
  - intros Hneg Hle Hne Hall _.
    assert (Heff : fps_eff = fps_source) by (subst fps_eff; lia).
    assert (Hone : sample_rate_of fps_source fps_target = 1).
    { unfold sample_rate_of. rewrite Hfix, Heff. apply Z.quot_same. lia. }
    destruct (@process_poses_stride frame_list pelvis_head fps_source
                fps_target start_origin sc Hne Hall
                ltac:(rewrite Hfix, Heff; lia) ltac:(rewrite Hone; lia))
      as (Hret & Hkeys).
    fold r in Hret, Hkeys. rewrite Hone in Hret, Hkeys.
    split; [exact Hone|]. split; [|exact Hkeys].
    rewrite Hret. unfold frames_from. rewrite Z.div_1_r. do 2 f_equal. lia.
Qed.

End NoValidation.

(** ** Concrete runs *)

Section Runs.

Local Open Scope Z_scope.

Lemma repeat_well_shaped (t : vec3) (n : nat) :
  Forall (fun r => well_shaped r = true) (repeat (rest_record t) n).
Proof.
  apply Forall_forall. intros r Hr. apply repeat_spec in Hr. now subst r.
Qed.

(** The strides of the three rate settings of the specification. *)
Example stride_same_rate : sample_rate_of 30 30 = 1.
Proof. reflexivity. Qed.

Example stride_clamped : sample_rate_of 30 60 = 1.
Proof. reflexivity. Qed.

Example stride_downsample : sample_rate_of 30 10 = 3.
Proof. reflexivity. Qed.

(** A negative target rate gives a negative stride: the loop walks the
    array from its end and stops on an IndexError, leaving the frames
    it had inserted. *)
Example negative_stride_run :
  let r := @process_poses Ref.runtime (repeat (rest_record origin) 4)
             origin 30 (-10) true new_scene in
  snd r = Raised IndexError
  /\ location_frames (keyframes (fst r)) = [1; 2].
Proof. vm_compute. split; reflexivity. Qed.

(** On 100 records at 30 and 10 frames per second the stride is 3, and
    frames 1 to 34 are inserted, although the last frame of the scene is
    set to 33. *)
Lemma resampler_frames_witness :
  let r := @process_poses Ref.runtime (repeat (rest_record origin) 100)
             origin 30 10 true new_scene in
  sample_rate_of 30 10 = 3
  /\ location_frames (keyframes (fst r)) = map Z.of_nat (seq 1 34).
Proof.
  destruct (@resampler_frames Ref.runtime (repeat (rest_record origin) 100)
              origin 30 10 true new_scene
              ltac:(discriminate) (repeat_well_shaped origin 100)
              ltac:(unfold INT_MAX; lia) ltac:(unfold INT_MAX; lia)
              ltac:(vm_compute; discriminate))
    as (Hs & _ & _ & _ & _ & Hloc & _).
  split; [exact Hs|]. rewrite Hloc. reflexivity.
Defined.

Lemma scene_settings_witness :
  let r := @process_poses Ref.runtime (repeat (rest_record origin) 100)
             origin 30 10 true new_scene in
  frame_end (fst r) = 33
  /\ location_frames (keyframes (fst r)) = map Z.of_nat (seq 1 34).
Proof.
  destruct (@scene_settings_after_run Ref.runtime
              (repeat (rest_record origin) 100) origin 30 10 true new_scene
              ltac:(discriminate) (repeat_well_shaped origin 100)
              ltac:(unfold INT_MAX; lia) ltac:(unfold INT_MAX; lia)
              ltac:(rewrite repeat_length; unfold INT_MAX; lia))
    as (Hend & Hloc & _ & Hlast & _).
  split; [exact Hend|]. rewrite Hloc. reflexivity.
Defined.

(** Two records, centred on the origin: the first frame is at (0, 0),
    the second at its own translation minus that of the first. *)
Lemma origin_centering_witness :
  let r := @process_poses Ref.runtime
             [rest_record (V3 2 (-1) 5); rest_record (V3 2.5 (-0.75) 5.25)]
             origin 30 30 true new_scene in
  hd_error (location_keys (keyframes (fst r))) = Some (1, V3 0 0 0)
  /\ location_keys (keyframes (fst r))
     = [(1, V3 0 0 0); (2, V3 0.5 0.25 0)].
Proof.
  destruct (@origin_centering Ref.runtime
              [rest_record (V3 2 (-1) 5); rest_record (V3 2.5 (-0.75) 5.25)]
              origin 30 30 true new_scene
              ltac:(discriminate)
              ltac:(repeat constructor) ltac:(unfold INT_MAX; lia) ltac:(unfold INT_MAX; lia)
              ltac:(vm_compute; discriminate))
    as (new & Hkeys & Hloc & _ & Hfirst).
  cbn zeta. rewrite Hkeys. cbn [new_scene keyframes app]. split.
  - rewrite (Hfirst eq_refl eq_refl eq_refl). reflexivity.
  - rewrite Hloc. reflexivity.
Defined.


(** A sequence whose second record has 20 body joints. *)
Lemma shape_mismatch_aborts_witness :
  let r := @process_poses Ref.runtime
             [rest_record origin; short_record origin] origin 30 30 true
             new_scene in
  keyframes (fst r) = [] /\ snd r = Raised ValueError /\ fst r = new_scene.
Proof.
  destruct (@shape_mismatch_aborts Ref.runtime
              [rest_record origin; short_record origin] origin 30 30 true
              new_scene (short_record origin)
              ltac:(right; left; reflexivity)
              ltac:(left; vm_compute; discriminate)
              ltac:(unfold INT_MAX; lia) ltac:(unfold INT_MAX; lia)
              ltac:(vm_compute; discriminate))
    as (Hkeys & He & _ & Hsc).
  split; [exact Hkeys|]. split; [exact He|].
  exact (Hsc ValueError ltac:(vm_compute; reflexivity)).
Defined.

(** A sequence of records with 20 body joints assembles, 21 quaternions
    to the row; the error is raised in the loop, by the first call of
    [process_pose], after the frame rate, the last frame, the mode and
    the current frame of the scene have been set. *)
Lemma short_sequence_fails_in_the_loop :
  @get_input_data Ref.runtime [short_record origin]
  = Ok (@input_of Ref.runtime [short_record origin])
  /\ map (@List.length quat)
       (poses (@input_of Ref.runtime [short_record origin])) = [21%nat]
  /\ @process_poses Ref.runtime [short_record origin] origin 30 30 true
       new_scene
     = ({| render_fps := 30; frame_end := 1; frame_current := 1;
           object_mode := POSE; keyframes := [] |}, Raised ValueError).
Proof. vm_compute. repeat split. Qed.

(** A vector with a NaN component is converted: the matrix handed to
    the matrix conversion has NaN in every entry, and no error is
    raised. *)
Lemma nan_rotvec_is_converted :
  @ToQuaternion Ref.runtime (Single (V3 nan 0 0))
  = Ok (QSingle (@to_quaternion Ref.runtime (Np.full nan))).
Proof. vm_compute. reflexivity. Qed.

(** A source rate of -5 with a target rate of 3: the target is clamped
    to -5, the stride is 1, and the run inserts its frame and
    returns. *)
Lemma negative_source_rate_runs :
  let r := @process_poses Ref.runtime [rest_record origin] origin (-5) 3 true
             new_scene in
  snd r = Returned 2
  /\ location_frames (keyframes (fst r)) = [1]
  /\ List.length (keyframes (fst r)) = 53%nat.
Proof. vm_compute. repeat split. Qed.

(** A target rate of 0. *)
Lemma zero_rate_raises_witness :
  @process_poses Ref.runtime [rest_record origin] origin 30 0 true new_scene
  = (set_render_fps 0 new_scene, Raised ZeroDivisionError).
Proof.
  apply (proj1 (@zero_rate_raises Ref.runtime [rest_record origin] origin
                  30 0 true new_scene
                  ltac:(unfold INT_MIN, INT_MAX; lia)
                  ltac:(unfold INT_MIN, INT_MAX; lia))
           (@input_of Ref.runtime [rest_record origin])).
  - vm_compute. reflexivity.
  - left. reflexivity.
Defined.

(** A record whose left hand starts with the vector (1, 2, 3). *)
Lemma hands_mirrored_witness :
  let r := {| global_orient := Batch [origin];
              body_pose := Batch (repeat origin 21);
              left_hand_pose := Batch (V3 1 2 3 :: repeat origin 14);
              right_hand_pose := Batch (repeat origin 15);
              transl := V3 2 (-1) 5 |} in
  lhposes (@input_of Ref.runtime [r])
  = [map (fun v => @rotvec_to_quat Ref.runtime (Np.row_matmul v fix_coor))
       (V3 1 2 3 :: repeat origin 14)]
  /\ (v2 (Np.row_matmul (V3 1 2 3) fix_coor) =? - 3)%float = true
  /\ trans (@input_of Ref.runtime [r]) = [V3 2 (-1) 5].
Proof.
  intros r.
  destruct (@hands_mirrored_before_conversion Ref.runtime [r]
              (@input_of Ref.runtime [r])
              ltac:(vm_compute; reflexivity))
    as (_ & Hl & _ & Hneg & _ & Ht).
  split; [exact Hl|]. split; [|exact Ht].
  exact (proj2 (proj2 (Hneg 1 2 3 eq_refl eq_refl eq_refl)%float)).
Defined.

(** 100 records at stride 3: 34 frames, and 35 is returned. *)
Lemma poses_processed_witness :
  let r := @process_poses Ref.runtime (repeat (rest_record origin) 100)
             origin 30 10 true new_scene in
  exists (f : Z) (new : list keyframe),
    keyframes (fst r) = new
    /\ poses_processed r = Some f
    /\ f = Z.of_nat (List.length (location_frames new)) + 1.
Proof.
  destruct (@poses_processed_is_frames_plus_one Ref.runtime
              (repeat (rest_record origin) 100) origin 30 10 true new_scene)
    as (new & Hkeys & Hcount & Hret).
  destruct (Hret ltac:(discriminate) (repeat_well_shaped origin 100)
              ltac:(unfold INT_MAX; lia) ltac:(unfold INT_MAX; lia)
              ltac:(vm_compute; discriminate)) as (f & Hf).
  exists f, new. split; [exact Hkeys|]. split; [exact Hf|].
  exact (Hcount f Hf).
Defined.

End Runs.

(** ** Whole frames only *)

Section WholeFrames.

Context {RT : Runtime}.

Local Open Scope Z_scope.

Lemma keyed_channels (names : list string) (frame : Z) :
  forall rots : list quat,
    List.length rots = List.length names ->
    map channel_of (keyed names frame rots)
    = map (fun name => (frame, (name, false))) names.
Proof.
  induction names as [|name names IH]; intros rots Hlen.
  - reflexivity.
  - destruct rots as [|q rots]; [discriminate|].
    unfold keyed. cbn [combine map]. f_equal.
    apply IH. cbn [List.length] in Hlen. lia.
Qed.

Lemma process_pose_channels (frame : Z) (p l r : list quat)
  (t pelvis_position : vec3) (ks : list keyframe) :
  process_pose frame p l r t pelvis_position = Ok ks ->
  map channel_of ks = map (fun c => (frame, c)) frame_channels.
Proof.
  unfold process_pose, Np.reshape_k4.
  destruct (Nat.eqb_spec (List.length p) 22) as [Hp|]; [|discriminate].
  destruct (Nat.eqb_spec (List.length l) 15) as [Hl|]; [|discriminate].
  destruct (Nat.eqb_spec (List.length r) 15) as [Hr|]; [|discriminate].
  cbn [Py.bind]. intros H. inversion H; subst ks; clear H.
  rewrite (hand_keys_keyed LHAND_JOINT_NAMES frame l 0)
    by (rewrite Hl; cbn; lia).
  rewrite (hand_keys_keyed RHAND_JOINT_NAMES frame r 0)
    by (rewrite Hr; cbn; lia).
  destruct p as [|root rest]; [discriminate|].
  cbn [body_keys Nat.leb Nat.eqb app skipn].
  rewrite body_keys_keyed by (cbn [List.length] in Hp; lia).
  unfold frame_channels. cbn [map]. f_equal.
  rewrite !map_app. cbn [skipn].
  rewrite !keyed_channels
    by (rewrite length_map; cbn [List.length] in *; cbn; lia).
  rewrite ?map_app, ?map_map. reflexivity.
Qed.

Lemma calls_channels (pelvis_position : vec3) :
  forall (kss : list (list keyframe)) (first : Z),
    (forall (j : nat) (ks : list keyframe),
        nth_error kss j = Some ks ->
        exists p l r t,
          process_pose (first + Z.of_nat j) p l r t pelvis_position = Ok ks) ->
    map channel_of (List.concat kss)
    = flat_map (fun j => map (fun c => (first + Z.of_nat j, c)) frame_channels)
        (seq 0 (List.length kss)).
Proof.
  induction kss as [|ks kss IH]; intros first Hcalls; [reflexivity|].
  cbn [List.concat List.length]. rewrite map_app, <- cons_seq.
  cbn [flat_map]. destruct (Hcalls 0%nat ks eq_refl) as (p & l & r & t & H0).
  rewrite (process_pose_channels _ _ _ _ _ _ H0), Z.add_0_r. f_equal.
  rewrite (IH (first + 1)).
  - symmetry.
    rewrite <- seq_shift, flat_map_concat_map, map_map,
      <- flat_map_concat_map.
    apply flat_map_ext. intros j. apply map_ext. intros c. f_equal. lia.
  - intros j ks' Hj. destruct (Hcalls (S j) ks' Hj) as (p' & l' & r' & t' & H').
    exists p', l', r', t'. rewrite <- H'. f_equal. lia.
Qed.

Lemma flat_map_length_const {A B} (f : A -> list B) (n : nat) (l : list A) :
  (forall a, List.length (f a) = n) ->
  List.length (flat_map f l) = (n * List.length l)%nat.
Proof.
  intros Hf. induction l as [|a l IH]; cbn [flat_map List.length]; [lia|].
  rewrite length_app, Hf, IH. lia.
Qed.

(** X3.  In every run, whatever the input and however the run ends, the
    keyframes inserted are those of whole frames numbered 1, 2, ..., m:
    each frame has its 53 channels (the location of the pelvis, then the
    rotation of each of the 22 + 15 + 15 joints) in one fixed order, and a
    run that returns, returns m + 1.  A frame is never left partly keyed,
    also when the run stops on an exception. *)
Theorem whole_frames_only (frame_list : list npz) (pelvis_head : vec3)
  (fps_source fps_target : Z) (start_origin : bool) (sc : scene) :
  let r := process_poses frame_list pelvis_head fps_source fps_target
             start_origin sc in
  exists (m : nat) (new : list keyframe),
    keyframes (fst r) = keyframes sc ++ new
    /\ map channel_of new
       = flat_map (fun j => map (fun c => (1 + Z.of_nat j, c)) frame_channels)
           (seq 0 m)
    /\ List.length new = (53 * m)%nat
    /\ (forall f, snd r = Returned f -> f = 1 + Z.of_nat m).
Proof.
  intros r.
  destruct (process_poses_calls frame_list pelvis_head fps_source fps_target
              start_origin sc) as (kss & Hkeys & Hcalls & Hret).
  cbn zeta in *. fold r in Hkeys, Hret.
  pose proof (calls_channels (Vector pelvis_head) kss 1 Hcalls) as Hch.
  exists (List.length kss), (List.concat kss).
  split; [exact Hkeys|]. split; [exact Hch|]. split; [|exact Hret].
  rewrite <- (length_map channel_of), Hch.
  rewrite (@flat_map_length_const _ _ _ 53%nat), length_seq; [reflexivity|].
  intros j. now rewrite length_map.
Qed.

End WholeFrames.

(** ** The third component of the translation *)

Section Vertical.

Context {RT : Runtime}.

Local Open Scope Z_scope.

Lemma assemble_ground (r : npz) :
  assemble (ground r) = (a <- assemble r ;; Ok (ground_sample a))%py.
Proof.
  unfold assemble. cbn [ground global_orient body_pose left_hand_pose
                        right_hand_pose transl].
  destruct (ToQuaternion (global_orient r)) as [g|e]; [|reflexivity].
  destruct (ToQuaternion (body_pose r)) as [b|e]; [|reflexivity].
  cbn [Py.bind].
  destruct (Np.concatenate_flatten g b) as [rot|e]; [|reflexivity].
  cbn [Py.bind].
  destruct (ToQuaternion (Np.matmul (left_hand_pose r) fix_coor)) as [lq|e];
    [|reflexivity].
  cbn [Py.bind].
  destruct (ToQuaternion (Np.matmul (right_hand_pose r) fix_coor)) as [rq|e];
    reflexivity.
Qed.

Lemma assemble_all_ground (frame_list : list npz) :
  assemble_all (map ground frame_list)
  = (l <- assemble_all frame_list ;; Ok (map ground_sample l))%py.
Proof.
  induction frame_list as [|r rest IH]; [reflexivity|].
  cbn [map assemble_all]. rewrite assemble_ground, IH.
  destruct (assemble r) as [a|e]; [|reflexivity]. cbn [Py.bind].
  destruct (assemble_all rest) as [l|e]; reflexivity.
Qed.

Lemma stack_map_const {A B} (f : A -> B) (n m : nat) (l : list A) :
  Np.stack (fun _ : B => n) (map f l)
  = (l' <- Np.stack (fun _ : A => m) l ;; Ok (map f l'))%py.
Proof.
  destruct l as [|a rest]; [reflexivity|].
  cbn [map Np.stack].
  replace (forallb _ (map f rest)) with true
    by (symmetry; apply forallb_forall; intros; apply Nat.eqb_refl).
  replace (forallb _ rest) with true
    by (symmetry; apply forallb_forall; intros; apply Nat.eqb_refl).
  reflexivity.
Qed.

Lemma get_input_data_ground (frame_list : list npz) :
  get_input_data (map ground frame_list)
  = (d <- get_input_data frame_list ;; Ok (ground_data d))%py.
Proof.
  unfold get_input_data. rewrite assemble_all_ground.
  destruct (assemble_all frame_list) as [l|e]; [|reflexivity].
  cbn [Py.bind]. rewrite !map_map. cbn [ground_sample a_pose a_lhpose a_rhpose
                                        a_trans].
  destruct (Np.stack _ (map (fun x => a_pose x) l)) as [p|e]; [|reflexivity].
  cbn [Py.bind].
  destruct (Np.stack _ (map (fun x => a_lhpose x) l)) as [lh|e];
    [|reflexivity].
  cbn [Py.bind].
  destruct (Np.stack _ (map (fun x => a_rhpose x) l)) as [rh|e];
    [|reflexivity].
  cbn [Py.bind].
  rewrite <- (map_map a_trans ground_vec).
  rewrite (stack_map_const ground_vec 3 3).
  destruct (Np.stack _ (map a_trans l)) as [t|e]; reflexivity.
Qed.

Lemma getitem_map {A B} (f : A -> B) (a : list A) (i : Z) :
  Py.getitem (map f a) i = (x <- Py.getitem a i ;; Ok (f x))%py.
Proof.
  unfold Py.getitem. rewrite length_map. cbn zeta.
  destruct (_ && _); [|reflexivity].
  rewrite nth_error_map. now destruct (nth_error a _).
Qed.

(** [process_pose] reads the first two components of the translation. *)
Lemma process_pose_horizontal (frame : Z) (p l r : list quat)
  (t t' pelvis_position : vec3) :
  v0 t = v0 t' -> v1 t = v1 t' ->
  process_pose frame p l r t pelvis_position
  = process_pose frame p l r t' pelvis_position.
Proof.
  intros H0 H1. unfold process_pose, pelvis_location. now rewrite H0, H1.
Qed.

Lemma pose_loop_ground (d : input_data) (start_origin : bool) (s : Z)
  (pelvis_position : vec3) (fuel : nat) :
  forall (i frame : Z) (offset : vec3) (sc : scene),
    pose_loop fuel (ground_data d) start_origin s pelvis_position i frame
      offset sc
    = pose_loop fuel d start_origin s pelvis_position i frame offset sc.
Proof.
  induction fuel as [|fuel IH]; intros i frame offset sc; [reflexivity|].
  rewrite !pose_loop_S. cbn [ground_data poses lhposes rhposes trans].
  destruct (i <? Z.of_nat (List.length (poses d))); [|reflexivity].
  rewrite !getitem_map.
  destruct (Py.getitem (trans d) i) as [t|e]; cbn [Py.bind ground_vec v0 v1];
    destruct (start_origin && (i =? 0)); try reflexivity;
    destruct (Py.getitem (poses d) i) as [p|e']; try reflexivity;
    destruct (Py.getitem (lhposes d) i) as [l|e']; try reflexivity;
    destruct (Py.getitem (rhposes d) i) as [r|e']; try reflexivity;
    cbn [Py.bind];
    match goal with
    | |- context [process_pose frame p l r (Np.vsub (ground_vec t) ?o) ?pv] =>
        rewrite (@process_pose_horizontal frame p l r
                   (Np.vsub (ground_vec t) o) (Np.vsub t o) pv
                   eq_refl eq_refl)
    end;
    destruct (process_pose _ _ _ _ _ _) as [ks|e']; try reflexivity;
    apply IH.
Qed.

Lemma process_poses_ground (frame_list : list npz) (pelvis_head : vec3)
  (fps_source fps_target : Z) (start_origin : bool) (sc : scene) :
  process_poses (map ground frame_list) pelvis_head fps_source fps_target
    start_origin sc
  = process_poses frame_list pelvis_head fps_source fps_target start_origin
      sc.
Proof.
  unfold process_poses. rewrite get_input_data_ground.
  destruct (get_input_data frame_list) as [d|e]; [|reflexivity].
  cbn [Py.bind ground_data poses].
  destruct (Py.int_truediv fps_source _) as [sr|e]; [|reflexivity].
  destruct (Py.int_truediv _ sr) as [fe|e]; [|reflexivity].
  apply (pose_loop_ground d).
Qed.

(** X4.  The run never reads the third component of a translation: two
    input sequences that differ only there give the same scene and the
    same outcome, keyframe for keyframe, at every rate and with or
    without origin centering. *)
Theorem vertical_translation_never_read (frame_list frame_list' : list npz)
  (pelvis_head : vec3) (fps_source fps_target : Z) (start_origin : bool)
  (sc : scene) :
  map ground frame_list = map ground frame_list' ->
  process_poses frame_list pelvis_head fps_source fps_target start_origin sc
  = process_poses frame_list' pelvis_head fps_source fps_target start_origin
      sc.
Proof.
  intros H.
  rewrite <- (process_poses_ground frame_list),
    <- (process_poses_ground frame_list').
  now rewrite H.
Qed.

End Vertical.

(** ** Vectors whose squared norm underflows *)

Lemma float_zero_mul (x : float) :
  is_finite x = true -> (0 * x = 0 \/ 0 * x = -0)%float.
Proof.
  intros H. rewrite <- (SF2Prim_Prim2SF (0 * x)%float), mul_spec.
  unfold SF64mul. change (Prim2SF 0) with (S754_zero false).
  destruct (is_finite_SF x H) as [[s E]|(s & m & e & E)]; rewrite E;
    cbn [SFmul xorb]; destruct s; auto.
Qed.

Lemma float_zero_mul_opp (x : float) :
  is_finite x = true -> (0 * - x = 0 \/ 0 * - x = -0)%float.
Proof.
  intros H. rewrite <- (SF2Prim_Prim2SF (0 * - x)%float), mul_spec, opp_spec.
  unfold SF64mul. change (Prim2SF 0) with (S754_zero false).
  destruct (is_finite_SF x H) as [[s E]|(s & m & e & E)]; rewrite E;
    cbn [SFmul SFopp xorb negb]; destruct s; auto.
Qed.

Section Underflow.

Context {RT : Runtime}.

Hypothesis cos_0 : cos 0 = 1%float.
Hypothesis sin_0 : sin 0 = 0%float.
Hypothesis to_quaternion_eye : to_quaternion Np.eye3 = identity_quat.

(** X5.  A rotation vector of numbers whose squared norm
    x*x + y*y + z*z evaluates to zero, as that of a vector with
    components below 2^-538 does, converts to the identity quaternion
    exactly, though it is not the zero vector: the norm is 0, the vector
    is not normalised, and its components only meet factors that are
    zero. *)
Theorem tiny_rotvec_identity (v : vec3) :
  finite3 v = true ->
  Np.dot3 v v = 0%float ->
  Rodrigues v = Np.eye3
  /\ ToQuaternion (Single v) = Ok (QSingle identity_quat).
Proof.
  intros Hfin Hdot.
  assert (HR : Rodrigues v = Np.eye3).
  { unfold Rodrigues, Np.norm. rewrite Hdot.
    change (sqrt 0) with 0%float. rewrite cos_0, sin_0.
    change (0 <? 0)%float with false. cbn iota.
    destruct v as [x y z]. unfold finite3 in Hfin. cbn [v0 v1 v2] in Hfin.
    apply andb_prop in Hfin as [Hfin Hz]. apply andb_prop in Hfin as [Hx Hy].
    unfold Np.madd, Np.mscale, Np.mmap2, Np.vmap2, Np.full, Np.eye3, skew.
    cbn [row0 row1 row2 v0 v1 v2].
    destruct (float_zero_mul x Hx) as [Ex|Ex],
      (float_zero_mul y Hy) as [Ey|Ey],
      (float_zero_mul z Hz) as [Ez|Ez],
      (float_zero_mul_opp x Hx) as [Ex'|Ex'],
      (float_zero_mul_opp y Hy) as [Ey'|Ey'],
      (float_zero_mul_opp z Hz) as [Ez'|Ez'];
      rewrite Ex, Ey, Ez, Ex', Ey', Ez'; reflexivity. }
  split; [exact HR|].
  unfold ToQuaternion. cbn [Py.tuple2_truth Py.assert_ Py.bind].
  unfold rotvec_to_quat. now rewrite HR, to_quaternion_eye.
Qed.

End Underflow.

(** ** The sequences [get_input_data] accepts *)

Section Accepted.

Context {RT : Runtime}.

Lemma ToQuaternion_converts (a : rotvecs) :
  ToQuaternion a
  = if converts a
    then Ok (match a with
             | Single v => QSingle (rotvec_to_quat v)
             | Batch rows => QBatch (map rotvec_to_quat rows)
             end)
    else Raise ValueError.
Proof.
  destruct a as [v|[|v rows]]; [reflexivity | reflexivity |].
  cbn [converts List.length Nat.eqb negb].
  rewrite (@ToQuaternion_rows _ (Batch (v :: rows))); [reflexivity|].
  discriminate.
Qed.

Lemma converts_matmul (a : rotvecs) (m : mat3) :
  converts (Np.matmul a m) = converts a.
Proof. destruct a as [v|rows]; [reflexivity|]. simpl. now rewrite length_map. Qed.

Lemma assemble_assembles (r : npz) :
  assemble r = if assembles r then Ok (sample_of r) else Raise ValueError.
Proof.
  unfold assemble, assembles. rewrite !ToQuaternion_converts, !converts_matmul.
  destruct (converts (global_orient r)); [|reflexivity].
  destruct (converts (body_pose r)); [|reflexivity].
  cbn [Py.bind andb].
  destruct (global_orient r) as [vg|rg] eqn:Eg,
    (body_pose r) as [vb|rb] eqn:Eb;
    cbn [Np.concatenate_flatten Np.rotvecs_ndim Nat.eqb Py.bind andb];
    try reflexivity;
    (destruct (converts (left_hand_pose r)); [|reflexivity]);
    (destruct (converts (right_hand_pose r)); [|reflexivity]);
    cbn [Py.bind andb]; unfold sample_of; rewrite Eg, Eb;
    cbn [rotvec_rows]; rewrite ?map_app;
    destruct (left_hand_pose r), (right_hand_pose r); reflexivity.
Qed.

Lemma assemble_all_assembles (frame_list : list npz) :
  assemble_all frame_list
  = if forallb assembles frame_list
    then Ok (map sample_of frame_list)
    else Raise ValueError.
Proof.
  induction frame_list as [|r rest IH]; [reflexivity|].
  cbn [assemble_all forallb map]. rewrite assemble_assembles, IH.
  destruct (assembles r); [|reflexivity]. cbn [Py.bind andb].
  now destruct (forallb assembles rest).
Qed.

Lemma forallb_map {A B} (f : B -> bool) (g : A -> B) (l : list A) :
  forallb f (map g l) = forallb (fun x => f (g x)) l.
Proof. induction l as [|a l IH]; [reflexivity|]. simpl. now rewrite IH. Qed.

Lemma forallb_pointwise {A} (f g : A -> bool) (l : list A) :
  (forall a, f a = g a) -> forallb f l = forallb g l.
Proof.
  intros H. induction l as [|a l IH]; [reflexivity|].
  simpl. now rewrite H, IH.
Qed.

(** X6.  [get_input_data] succeeds exactly on the sequences that have a
    first record, whose records each convert (no batch without rows,
    global orientation and body pose of the same number of dimensions),
    and whose records agree with the first in the number of body joints
    and of joints of each hand; it then returns the arrays of the
    converted records in the order of the files.  Any other sequence,
    the empty one included, raises ValueError.  The counts themselves are
    free: they need not be 22 and 15. *)
Theorem get_input_data_accepted (frame_list : list npz) :
  get_input_data frame_list
  = if accepted frame_list
    then Ok (input_of frame_list)
    else Raise ValueError.
Proof.
  unfold get_input_data. rewrite assemble_all_assembles.
  destruct frame_list as [|r0 rest]; [reflexivity|].
  unfold accepted. destruct (forallb assembles (r0 :: rest)); [|reflexivity].
  cbn [Py.bind andb map Np.stack]. rewrite !forallb_map.
  destruct (sample_of_joint_counts r0) as (Cp0 & Cl0 & Cr0).
  rewrite (@forallb_pointwise _
             (fun x => Nat.eqb (List.length (a_pose (sample_of x)))
                         (List.length (a_pose (sample_of r0))))
             (fun r => Nat.eqb (body_joints r) (body_joints r0)))
    by (intros r; destruct (sample_of_joint_counts r) as (Cp & _);
        now rewrite Cp, Cp0).
  rewrite (@forallb_pointwise _
             (fun x => Nat.eqb (List.length (a_lhpose (sample_of x)))
                         (List.length (a_lhpose (sample_of r0))))
             (fun r => Nat.eqb (joint_count (left_hand_pose r))
                         (joint_count (left_hand_pose r0))))
    by (intros r; destruct (sample_of_joint_counts r) as (_ & Cl & _);
        now rewrite Cl, Cl0).
  rewrite (@forallb_pointwise _
             (fun x => Nat.eqb (List.length (a_rhpose (sample_of x)))
                         (List.length (a_rhpose (sample_of r0))))
             (fun r => Nat.eqb (joint_count (right_hand_pose r))
                         (joint_count (right_hand_pose r0))))
    by (intros r; destruct (sample_of_joint_counts r) as (_ & _ & Cr);
        now rewrite Cr, Cr0).
  destruct (forallb _ rest); [|reflexivity]. cbn [Py.bind andb].
  destruct (forallb _ rest); [|reflexivity]. cbn [Py.bind andb].
  destruct (forallb _ rest); [|reflexivity]. cbn [Py.bind andb].
  replace (forallb _ rest) with true
    by (symmetry; apply forallb_forall; intros; apply Nat.eqb_refl).
  reflexivity.
Qed.

End Accepted.

(** ** Without origin centering *)

(** Subtracting +0 changes no binary64 value: not a NaN, an infinity or
    a zero of either sign. *)
Lemma float_sub_zero (x : float) : (x - 0)%float = x.
Proof.
  apply Prim2SF_inj. rewrite sub_spec. unfold SF64sub.
  change (Prim2SF 0) with (S754_zero false).
  destruct (Prim2SF x) as [s|s| |s m e]; try reflexivity.
  now destruct s.
Qed.

Section Uncentred.

Context {RT : Runtime}.

Local Open Scope Z_scope.

(** X7.  Without origin centering, the root translation keyed in each
    frame is built from the translation of its source record as read:
    it is what the bone holds after the assignment of
    Vector((t.x, t.y, 0)) - pelvis_position, the subtraction of the zero
    offset having changed neither t.x nor t.y, whatever their values.
    The bone keeps the first two components within the range of a
    single, so an infinite difference is keyed as FLT_MAX or -FLT_MAX.
    The rates are positive integers in the range of a C int, and so is
    the number of records. *)
Theorem uncentred_translation_is_raw (frame_list : list npz)
  (pelvis_head : vec3) (fps_source fps_target : Z) (sc : scene) :
  frame_list <> [] ->
  Forall (fun r => well_shaped r = true) frame_list ->
  0 < fps_source <= INT_MAX -> 0 < fps_target <= INT_MAX ->
  Z.of_nat (List.length frame_list) <= INT_MAX ->
  let s := sample_rate_of fps_source fps_target in
  let count := frames_from (Z.of_nat (List.length frame_list)) s 0 in
  let r := process_poses frame_list pelvis_head fps_source fps_target
             false sc in
  exists new : list keyframe,
    keyframes (fst r) = keyframes sc ++ new
    /\ location_keys new
       = map (fun k =>
                let t := transl (nth (Z.to_nat (Z.of_nat k * s)) frame_list
                                   empty_npz) in
                (1 + Z.of_nat k,
                 location_set
                   (Vector_sub (Vector (V3 (v0 t) (v1 t) 0))
                      (Vector pelvis_head))))
           (seq 0 count).
Proof.
  intros Hne Hall [Hfs _] [Hft _] _ s count r.
  destruct (@process_poses_valid _ frame_list pelvis_head fps_source
              fps_target false sc Hne Hall Hfs Hft) as (_ & Hkeys & _).
  fold r s in Hkeys.
  exists (expected_track frame_list pelvis_head false s).
  split; [exact Hkeys|].
  rewrite expected_track_locations. apply map_ext. intros k.
  cbn zeta. unfold pelvis_location, Np.vsub, origin_offset.
  cbn [v0 v1 v2]. now rewrite !float_sub_zero.
Qed.

End Uncentred.

(** ** Downsampling *)

Section Downsampling.

Context {RT : Runtime}.

Local Open Scope Z_scope.

Lemma body_keys_set_frame (f f' : Z) (rows : list quat) :
  forall index,
    map (set_frame f') (body_keys f index rows) = body_keys f' index rows
    /\ Forall (fun k => frame_of k = f) (body_keys f index rows).
Proof.
  induction rows as [|q rows IH]; intros index; [now split|].
  cbn [body_keys]. rewrite map_app. destruct (IH (S index)) as [E F].
  rewrite E. split.
  - f_equal. now destruct (Nat.leb 22 index).
  - apply Forall_app. split; [|exact F].
    destruct (Nat.leb 22 index); repeat constructor.
Qed.

Lemma hand_keys_set_frame (names : list string) (f f' : Z)
  (rows : list quat) :
  forall index,
    map (set_frame f') (hand_keys names f index rows)
    = hand_keys names f' index rows
    /\ Forall (fun k => frame_of k = f) (hand_keys names f index rows).
Proof.
  induction rows as [|q rows IH]; intros index; [now split|].
  cbn [hand_keys]. rewrite map_app. destruct (IH (S index)) as [E F].
  rewrite E. split.
  - f_equal. now destruct (Nat.leb 15 index).
  - apply Forall_app. split; [|exact F].
    destruct (Nat.leb 15 index); repeat constructor.
Qed.

Lemma frame_keys_set_frame (f f' : Z) (a : assembled)
  (offset pelvis_position : vec3) :
  map (set_frame f') (frame_keys f a offset pelvis_position)
  = frame_keys f' a offset pelvis_position
  /\ Forall (fun k => frame_of k = f)
       (frame_keys f a offset pelvis_position).
Proof.
  unfold frame_keys. cbn [map]. rewrite !map_app.
  destruct (body_keys_set_frame f f' (a_pose a) 0) as [Eb Fb].
  destruct (hand_keys_set_frame LHAND_JOINT_NAMES f f' (a_lhpose a) 0)
    as [El Fl].
  destruct (hand_keys_set_frame RHAND_JOINT_NAMES f f' (a_rhpose a) 0)
    as [Er Fr].
  rewrite Eb, El, Er. split; [reflexivity|].
  constructor; [reflexivity|]. now rewrite !Forall_app.
Qed.

Lemma in_frame_all (f : Z) (ks : list keyframe) :
  Forall (fun k => frame_of k = f) ks -> in_frame f ks = ks.
Proof.
  induction 1 as [|k ks Hk _ IH]; [reflexivity|].
  unfold in_frame in *. cbn [filter]. rewrite Hk, Z.eqb_refl. now rewrite IH.
Qed.

Lemma in_frame_none (f g : Z) (ks : list keyframe) :
  f <> g -> Forall (fun k => frame_of k = g) ks -> in_frame f ks = [].
Proof.
  intros Hne. induction 1 as [|k ks Hk _ IH]; [reflexivity|].
  unfold in_frame in *. cbn [filter]. rewrite Hk.
  destruct (Z.eqb_spec g f); [congruence | exact IH].
Qed.

(** In a track of frames with distinct numbers, the keyframes at one
    number are those of its frame. *)
Lemma in_frame_flat_map (F : nat -> list keyframe) (j0 : nat) :
  (forall j, Forall (fun k => frame_of k = 1 + Z.of_nat j) (F j)) ->
  forall l : list nat,
    NoDup l ->
    in_frame (1 + Z.of_nat j0) (flat_map F l)
    = if in_dec Nat.eq_dec j0 l then F j0 else [].
Proof.
  intros HF. induction l as [|a l IH]; intros Hnd; [reflexivity|].
  inversion Hnd as [|? ? Hnotin Hnd']; subst.
  cbn [flat_map]. unfold in_frame in *. rewrite filter_app.
  fold (in_frame (1 + Z.of_nat j0) (F a)). rewrite (IH Hnd').
  destruct (Nat.eq_dec a j0) as [->|Hne].
  - rewrite (in_frame_all (HF j0)).
    destruct (in_dec Nat.eq_dec j0 l) as [Hin|_]; [contradiction|].
    destruct (in_dec Nat.eq_dec j0 (j0 :: l)) as [_|Hout];
      [apply app_nil_r | exfalso; apply Hout; now left].
  - rewrite (@in_frame_none (1 + Z.of_nat j0) (1 + Z.of_nat a) (F a))
      by (lia || apply HF).
    cbn [app].
    destruct (in_dec Nat.eq_dec j0 l) as [Hin|Hout];
      destruct (in_dec Nat.eq_dec j0 (a :: l)) as [Hin'|Hout'];
      try reflexivity.
    + exfalso. apply Hout'. now right.
    + exfalso. destruct Hin' as [E|Hin']; [congruence | contradiction].
Qed.

(** X8.  Downsampling selects and renumbers, and changes nothing else:
    frame 1 + k of a run at stride s holds, keyframe for keyframe, what
    frame 1 + k * s of the run on the same input at the source rate
    (stride 1) holds.  The rates are positive integers in the range of a
    C int, and so is the number of records. *)
Theorem downsampled_frames_are_source_frames (frame_list : list npz)
  (pelvis_head : vec3) (fps_source fps_target : Z) (start_origin : bool)
  (sc : scene) :
  frame_list <> [] ->
  Forall (fun r => well_shaped r = true) frame_list ->
  0 < fps_source <= INT_MAX -> 0 < fps_target <= INT_MAX ->
  Z.of_nat (List.length frame_list) <= INT_MAX ->
  let s := sample_rate_of fps_source fps_target in
  let count := frames_from (Z.of_nat (List.length frame_list)) s 0 in
  let full := process_poses frame_list pelvis_head fps_source fps_source
                start_origin sc in
  let sub := process_poses frame_list pelvis_head fps_source fps_target
               start_origin sc in
  exists new_full new_sub : list keyframe,
    keyframes (fst full) = keyframes sc ++ new_full
    /\ keyframes (fst sub) = keyframes sc ++ new_sub
    /\ new_sub
       = flat_map
           (fun k => map (set_frame (1 + Z.of_nat k))
                       (in_frame (1 + Z.of_nat k * s) new_full))
           (seq 0 count).
Proof.
  intros Hne Hall [Hfs _] [Hft _] _ s count full sub.
  destruct (@process_poses_valid _ frame_list pelvis_head fps_source
              fps_source start_origin sc Hne Hall Hfs Hfs)
    as (_ & Hfull & _).
  destruct (@process_poses_valid _ frame_list pelvis_head fps_source
              fps_target start_origin sc Hne Hall Hfs Hft)
    as (_ & Hsub & _).
  fold full in Hfull. fold sub s in Hsub.
  destruct (sample_rate_of_pos Hfs Hft) as [_ Hs]. fold s in Hs.
  assert (H1 : sample_rate_of fps_source fps_source = 1).
  { unfold sample_rate_of. destruct (fps_source >? fps_source);
      apply Z.quot_same; lia. }
  rewrite H1 in Hfull.
  exists (expected_track frame_list pelvis_head start_origin 1),
    (expected_track frame_list pelvis_head start_origin s).
  split; [exact Hfull|]. split; [exact Hsub|].
  unfold expected_track at 1. fold count.
  rewrite !flat_map_concat_map. f_equal. apply map_ext_in.
  intros k Hk. apply in_seq in Hk.
  pose proof (@frames_from_bound (Z.of_nat (List.length frame_list)) s k
                Hs ltac:(lia)) as Hb.
  unfold expected_track.
  replace (1 + Z.of_nat k * s) with (1 + Z.of_nat (Z.to_nat (Z.of_nat k * s)))
    by lia.
  rewrite in_frame_flat_map;
    [| intros j; apply frame_keys_set_frame; exact 0 | apply seq_NoDup].
  destruct (in_dec Nat.eq_dec _ _) as [_|Hout].
  - rewrite Z.mul_1_r, Nat2Z.id.
    now rewrite (proj1 (frame_keys_set_frame _ (1 + Z.of_nat k) _ _ _)).
  - exfalso. apply Hout. apply in_seq.
    assert (E : frames_from (Z.of_nat (List.length frame_list)) 1 0
                = List.length frame_list).
    { unfold frames_from. rewrite Z.div_1_r. lia. }
    rewrite E. lia.
Qed.

End Downsampling.

(** ** Further runs *)

Section MoreRuns.

Local Open Scope Z_scope.

(** Two sequences that differ in the heights of their translations
    only. *)
Lemma vertical_translation_witness :
  @process_poses Ref.runtime
    [rest_record (V3 1 2 3); rest_record (V3 1.5 2 4)] origin 30 30 true
    new_scene
  = @process_poses Ref.runtime
      [rest_record (V3 1 2 (-7)); rest_record (V3 1.5 2 0)] origin 30 30 true
      new_scene.
Proof.
  apply (@vertical_translation_never_read Ref.runtime
           [rest_record (V3 1 2 3); rest_record (V3 1.5 2 4)]
           [rest_record (V3 1 2 (-7)); rest_record (V3 1.5 2 0)]
           origin 30 30 true new_scene).
  reflexivity.
Defined.

(** The vector (2^-600, -2^-700, 0) is not zero; its squared norm is. *)
Lemma tiny_rotvec_witness :
  @Rodrigues Ref.runtime (V3 0x1p-600 (-0x1p-700) 0) = Np.eye3
  /\ @ToQuaternion Ref.runtime (Single (V3 0x1p-600 (-0x1p-700) 0))
     = Ok (QSingle identity_quat).
Proof.
  apply (@tiny_rotvec_identity Ref.runtime eq_refl eq_refl eq_refl
           (V3 0x1p-600 (-0x1p-700) 0)); reflexivity.
Defined.

(** Two records, not centred, with the pelvis bone at (0, 0, 0.5). *)
Lemma uncentred_translation_witness :
  let r := @process_poses Ref.runtime
             [rest_record (V3 2 (-1) 5); rest_record (V3 2.5 (-0.75) 5.25)]
             (V3 0 0 0.5) 30 30 false new_scene in
  location_keys (keyframes (fst r))
  = [(1, V3 2 (-1) (-0.5)); (2, V3 2.5 (-0.75) (-0.5))].
Proof.
  destruct (@uncentred_translation_is_raw Ref.runtime
              [rest_record (V3 2 (-1) 5); rest_record (V3 2.5 (-0.75) 5.25)]
              (V3 0 0 0.5) 30 30 new_scene
              ltac:(discriminate)
              ltac:(repeat constructor) ltac:(unfold INT_MAX; lia) ltac:(unfold INT_MAX; lia)
              ltac:(vm_compute; discriminate))
    as (new & Hkeys & Hloc).
  cbn zeta. rewrite Hkeys. cbn [new_scene keyframes app].
  rewrite Hloc. reflexivity.
Defined.

(** An infinite translation, not centred: the bone holds FLT_MAX. *)
Example infinite_translation_run :
  let r := @process_poses Ref.runtime
             [rest_record (V3 infinity (-1) 5)] origin 30 30 false
             new_scene in
  location_keys (keyframes (fst r)) = [(1, V3 FLT_MAX (-1) 0)].
Proof. vm_compute. reflexivity. Qed.

(** Four records at 30 and 10 frames per second: the two frames of the
    run are frames 1 and 4 of the run at 30 frames per second. *)
Lemma downsampled_frames_witness :
  let l := [rest_record (V3 2 (-1) 5); rest_record (V3 2.5 (-0.75) 5.25);
            rest_record (V3 3 0 5); rest_record (V3 3.5 1 5)] in
  let full := @process_poses Ref.runtime l origin 30 30 true new_scene in
  let sub := @process_poses Ref.runtime l origin 30 10 true new_scene in
  keyframes (fst sub)
  = map (set_frame 1) (in_frame 1 (keyframes (fst full)))
    ++ map (set_frame 2) (in_frame 4 (keyframes (fst full)))
  /\ List.length (keyframes (fst sub)) = 106%nat.
Proof.
  intros l full sub.
  destruct (@downsampled_frames_are_source_frames Ref.runtime l origin 30 10
              true new_scene
              ltac:(discriminate)
              ltac:(repeat constructor) ltac:(unfold INT_MAX; lia) ltac:(unfold INT_MAX; lia)
              ltac:(vm_compute; discriminate))
    as (new_full & new_sub & Hfull & Hsub & E).
  fold full in Hfull. fold sub in Hsub. split.
  - rewrite Hfull, Hsub. cbn [new_scene keyframes app]. rewrite E.
    change (frames_from _ _ _) with 2%nat.
    change (sample_rate_of 30 10) with 3.
    cbn [flat_map seq]. rewrite app_nil_r. reflexivity.
  - vm_compute. reflexivity.
Defined.

End MoreRuns.

(** ** Paths *)

Section Paths.

Import Ascii.

Local Open Scope string_scope.

Lemma eqb_has_sep (s suffix : string) :
  Os.has_sep s = true -> Os.has_sep suffix = false -> (s =? suffix) = false.
Proof.
  intros Hs Hf. destruct (String.eqb_spec s suffix); [|reflexivity].
  subst. congruence.
Qed.

Lemma has_sep_app (a b : string) : Os.has_sep (a ++ String "/"%char b) = true.
Proof.
  induction a as [|c a IH]; cbn [append Os.has_sep]; [reflexivity|].
  rewrite IH. apply orb_true_r.
Qed.

(** A suffix without separator is found behind the last separator. *)
Lemma endswith_after_sep (a b suffix : string) :
  Os.has_sep suffix = false ->
  Os.endswith (a ++ String "/"%char b) suffix = Os.endswith b suffix.
Proof.
  intros Hf. induction a as [|c a IH]; cbn [append Os.endswith].
  - now rewrite (@eqb_has_sep (String "/"%char b) suffix eq_refl Hf).
  - rewrite IH. rewrite eqb_has_sep; [reflexivity | | exact Hf].
    apply (has_sep_app (String c a) b).
Qed.

Lemma endswith_sep_inv (a : string) :
  Os.endswith a "/" = true -> exists a', a = a' ++ "/".
Proof.
  induction a as [|c a IH]; cbn [Os.endswith]; [discriminate|].
  intros H. apply orb_prop in H as [H|H].
  - apply String.eqb_eq in H. now exists "".
  - destruct (IH H) as [a' ->]. now exists (String c a').
Qed.

Lemma append_sep_assoc (a b : string) : (a ++ "/") ++ b = a ++ String "/"%char b.
Proof. induction a as [|c a IH]; cbn [append]; [reflexivity | now rewrite IH]. Qed.

Lemma join_relative (a b : string) :
  Os.startswith b Os.sep = false ->
  Os.join a b = b \/ exists a', Os.join a b = a' ++ String "/"%char b.
Proof.
  intros Hb. unfold Os.join. rewrite Hb.
  destruct (String.eqb_spec a "") as [->|Ha]; cbn [orb]; [now left|].
  destruct (Os.endswith a Os.sep) eqn:He.
  - destruct (endswith_sep_inv _ He) as [a' ->]. right. exists a'.
    apply append_sep_assoc.
  - right. now exists a.
Qed.

(** Whether a path ends in a suffix without separator is not changed by
    making the path absolute. *)
Lemma endswith_absolute (cwd p suffix : string) :
  Os.has_sep suffix = false ->
  Os.endswith (absolute cwd p) suffix = Os.endswith p suffix.
Proof.
  intros Hf. unfold absolute.
  destruct (Os.startswith p Os.sep) eqn:Hp; cbn [negb]; [reflexivity|].
  destruct (join_relative cwd p Hp) as [->|[a' ->]]; [reflexivity|].
  now apply endswith_after_sep.
Qed.

Lemma dirname_no_sep (p : string) : Os.has_sep p = false -> Os.dirname p = "".
Proof.
  intros H. unfold Os.dirname.
  destruct p as [|c p]; [reflexivity|].
  cbn [Os.through_last_sep]. rewrite H. reflexivity.
Qed.

Lemma startswith_sep_inv (p : string) :
  Os.startswith p Os.sep = true -> exists p', p = String "/"%char p'.
Proof.
  destruct p as [|c p]; [discriminate|].
  unfold Os.startswith, Os.sep. cbn [prefix].
  destruct (Ascii.ascii_dec "/"%char c) as [<-|]; [|discriminate].
  intros _. now exists p.
Qed.

Lemma dirname_rooted (p : string) :
  Os.startswith p Os.sep = true -> Os.dirname p <> "".
Proof.
  intros H. destruct (startswith_sep_inv _ H) as [p' ->].
  unfold Os.dirname. cbn [Os.through_last_sep Os.has_sep].
  change (Ascii.eqb "/"%char "/"%char) with true. cbn [orb].
  destruct (Os.only_sep (String "/"%char (Os.through_last_sep p'))) eqn:E;
    cbn [String.eqb negb andb].
  - discriminate.
  - change (("/" =? "")%string) with false. cbn [negb andb].
    cbn [Os.rstrip_sep]. rewrite E. discriminate.
Qed.

Lemma absolute_rooted (cwd p : string) :
  Os.startswith cwd Os.sep = true ->
  Os.startswith (absolute cwd p) Os.sep = true.
Proof.
  intros H. unfold absolute.
  destruct (Os.startswith p Os.sep) eqn:Hp; cbn [negb]; [exact Hp|].
  destruct (startswith_sep_inv _ H) as [cwd' ->].
  unfold Os.join. rewrite Hp.
  destruct (_ || _); cbn [append]; unfold Os.startswith, Os.sep;
    cbn [prefix]; (destruct (Ascii.ascii_dec "/"%char "/"%char);
                   [destruct (_ ++ _); reflexivity | congruence]).
Qed.

End Paths.

(** ** The export *)

Section Exporter.




End Exporter.

(** ** The entry point *)

Section EntryPoint.

Context {RT : Runtime}.

Local Open Scope Z_scope.

Lemma suffix_absolute (cwd p : string) :
  (Os.endswith (absolute cwd p) ".fbx" || Os.endswith (absolute cwd p) ".glb")
  = (Os.endswith p ".fbx" || Os.endswith p ".glb").
Proof. now rewrite !endswith_absolute. Qed.

Lemma main_unchecked (sys : system) (args : Args.t) (w : world) :
  background sys = false -> main sys args w = (w, Uncaught NameError).
Proof. intros H. unfold main. now rewrite H. Qed.

Lemma main_no_input (sys : system) (args : Args.t) (w : world) :
  background sys = true ->
  listing sys (absolute (getcwd sys) (Args.input_path args)) = None ->
  main sys args w = (w, Reported 1).
Proof. intros Hb Hl. unfold main. now rewrite Hb, Hl. Qed.

Lemma main_other_format (sys : system) (args : Args.t) (w : world)
  (frame_list : list npz) :
  background sys = true ->
  listing sys (absolute (getcwd sys) (Args.input_path args))
  = Some frame_list ->
  (Os.endswith (Args.output_path args) ".fbx"
   || Os.endswith (Args.output_path args) ".glb") = false ->
  main sys args w = (w, Reported 1).
Proof.
  intros Hb Hl Hs. unfold main. rewrite Hb, Hl. cbn zeta.
  now rewrite suffix_absolute, Hs.
Qed.

Lemma main_run (sys : system) (args : Args.t) (w : world)
  (frame_list : list npz) :
  background sys = true ->
  listing sys (absolute (getcwd sys) (Args.input_path args))
  = Some frame_list ->
  (Os.endswith (Args.output_path args) ".fbx"
   || Os.endswith (Args.output_path args) ".glb") = true ->
  let r := process_poses frame_list (edit_bone_head sys)
             (Args.fps_source args) (Args.fps_target args)
             (Args.start_origin args) (bpy_scene w) in
  let x := export_animated_mesh sys
             (absolute (getcwd sys) (Args.output_path args))
             (with_scene (fst r) w) in
  main sys args w
  = match snd r with
    | Raised e => (with_scene (fst r) w, Uncaught (Exception e))
    | OutOfFuel => (with_scene (fst r) w, Unfinished)
    | Returned _ =>
        match snd x with
        | Some e => (fst x, handler e)
        | None => (fst x, Reported 0)
        end
    end.
Proof.
  intros Hb Hl Hs. unfold main. rewrite Hb, Hl. cbn zeta.
  now rewrite suffix_absolute, Hs.
Qed.




(** X12.  Called on a file name without directory part,
    [export_animated_mesh] fails before it selects or exports anything:
    the directory name is empty, [os.makedirs] of the empty path raises
    FileNotFoundError.  The entry point never hands it such a path: from
    an absolute working directory the script does not end with this
    error. *)
Theorem export_needs_a_directory (sys : system) (output_path : string)
  (w : world) :
  Os.has_sep output_path = false ->
  export_animated_mesh sys output_path w = (w, Some FileNotFoundError)
  /\ forall args : Args.t,
       Args.output_path args = output_path ->
       Os.startswith (getcwd sys) Os.sep = true ->
       snd (main sys args w) <> Uncaught FileNotFoundError.
Proof.
  intros Hp. split.
  - unfold export_animated_mesh. rewrite (dirname_no_sep _ Hp).
    reflexivity.
  - intros args _ Hcwd.
    destruct (background sys) eqn:Hb;
      [|rewrite (main_unchecked _ args w Hb); discriminate].
    destruct (listing sys (absolute (getcwd sys) (Args.input_path args)))
      as [frame_list|] eqn:Hl;
      [|rewrite (main_no_input _ _ w Hb Hl); discriminate].
    destruct (Os.endswith (Args.output_path args) ".fbx"
              || Os.endswith (Args.output_path args) ".glb") eqn:Hs;
      [|rewrite (main_other_format _ _ w Hb Hl Hs); discriminate].
    rewrite (main_run _ _ w Hb Hl Hs).
    destruct (snd (process_poses _ _ _ _ _ _)) as [f|e|]; cbn [fst snd];
      try discriminate.
    pose proof (dirname_rooted _
                  (absolute_rooted _ (Args.output_path args) Hcwd)) as Hroot.
    set (out := absolute (getcwd sys) (Args.output_path args)) in *.
    unfold export_animated_mesh.
    destruct (is_dir _ _ _); cbn [negb fst snd].
    + destruct (armature_children sys);
        [cbn [fst snd handler]; discriminate|].
      destruct (Os.endswith out ".glb");
        [cbn [fst snd handler]; discriminate|].
      destruct (Os.endswith out ".fbx"); cbn [fst snd handler]; discriminate.
    + unfold makedirs.
      destruct (String.eqb_spec (Os.dirname out) ""); [contradiction|].
      destruct (may_create sys _); cbn [fst snd handler]; [|discriminate].
      destruct (armature_children sys);
        [cbn [fst snd handler]; discriminate|].
      destruct (Os.endswith out ".glb");
        [cbn [fst snd handler]; discriminate|].
      destruct (Os.endswith out ".fbx"); cbn [fst snd handler]; discriminate.
Qed.

End EntryPoint.

(** ** Runs of the script *)

Section Scripts.

Local Open Scope Z_scope.


(** A bare file name handed to the export. *)
Lemma export_needs_a_directory_witness :
  export_animated_mesh (home_system []) "res.fbx" new_world
  = (new_world, Some FileNotFoundError).
Proof.
  exact (proj1 (@export_needs_a_directory Ref.runtime (home_system [])
                  "res.fbx" new_world eq_refl)).
Defined.

(** The default input with an output argument that names no format:
    status 1 is reported and nothing is done. *)
Example output_without_format :
  @main Ref.runtime (home_system [rest_record origin])
    (with_output "./demo/fbx_result/res" default_args) new_world
  = (new_world, Reported 1).
Proof. reflexivity. Qed.

(** Outside background mode the script stops on the unbound name. *)
Example foreground_run :
  let sys := home_system [rest_record origin] in
  @main Ref.runtime
    {| background := false; getcwd := getcwd sys; listing := listing sys;
       isdir := isdir sys; may_create := may_create sys;
       edit_bone_head := edit_bone_head sys;
       armature_children := armature_children sys |}
    default_args new_world
  = (new_world, Uncaught NameError).
Proof. reflexivity. Qed.

(** A record of the wrong shape in the input directory: the ValueError
    of [process_poses] is not caught, and nothing is exported. *)
Example misshapen_input_run :
  let r := @main Ref.runtime
             (home_system [rest_record origin; short_record origin])
             default_args new_world in
  snd r = Uncaught (Exception ValueError)
  /\ exported (fst r) = [] /\ made_dirs (fst r) = [].
Proof. vm_compute. repeat split. Qed.

End Scripts.

(** ** The opposite rotation *)
Lemma float_opp_involutive (x : float) : (- - x = x)%float.
Proof.
  apply Prim2SF_inj. rewrite !opp_spec.
  destruct (Prim2SF x); cbn [SFopp]; now rewrite ?negb_involutive.
Qed.

Lemma SFopp_round (s : bool) (m e : Z) (l : location) :
  SFopp (binary_round_aux prec emax s m e l)
  = binary_round_aux prec emax (negb s) m e l.
Proof.
  unfold binary_round_aux.
  destruct (shr_fexp prec emax m e l) as [mrs e'].
  destruct (shr_fexp prec emax _ e' loc_Exact) as [mrs' e''].
  destruct (shr_m mrs'); try reflexivity.
  destruct (Z.leb _ _); reflexivity.
Qed.

Lemma float_mul_opp_opp (x y : float) : (- x * - y = x * y)%float.
Proof.
  apply Prim2SF_inj. rewrite !mul_spec, !opp_spec. unfold SF64mul.
  destruct (Prim2SF x) as [s|s| |s m e], (Prim2SF y) as [s'|s'| |s' m' e'];
    cbn [SFmul SFopp]; try reflexivity; now destruct s, s'.
Qed.

Lemma float_mul_comm (x y : float) : (x * y = y * x)%float.
Proof.
  apply Prim2SF_inj. rewrite !mul_spec. unfold SF64mul.
  destruct (Prim2SF x) as [s|s| |s m e], (Prim2SF y) as [s'|s'| |s' m' e'];
    cbn [SFmul]; try reflexivity; rewrite ?(xorb_comm s s'); try reflexivity.
  now rewrite Pos.mul_comm, Z.add_comm.
Qed.

Lemma float_div_opp_l (x y : float) : (- x / y = - (x / y))%float.
Proof.
  apply Prim2SF_inj. rewrite opp_spec, !div_spec, opp_spec. unfold SF64div.
  destruct (Prim2SF x) as [s|s| |s m e], (Prim2SF y) as [s'|s'| |s' m' e'];
    cbn [SFdiv SFopp]; try reflexivity; try (now destruct s, s').
  destruct (SFdiv_core_binary _ _ _ _ _ _) as [[mz ez] lz].
  rewrite SFopp_round. now destruct s, s'.
Qed.

Lemma norm_vneg (v : vec3) : Np.norm (vneg v) = Np.norm v.
Proof.
  unfold Np.norm, Np.dot3, vneg. cbn [v0 v1 v2].
  now rewrite !float_mul_opp_opp.
Qed.

Section Opposite.

Context {RT : Runtime}.

(** X13.  The rotation matrix of the negated vector is the transpose of
    the rotation matrix of the vector, entry for entry in binary64 and
    for every vector, whatever [cos] and [sin] return: negation, the
    squares under the norm, the division by theta and the outer product
    commute with the change of sign without a rounding difference. *)
Theorem Rodrigues_opposite (v : vec3) :
  Rodrigues (vneg v) = transpose (Rodrigues v).
Proof.
  unfold Rodrigues. rewrite norm_vneg.
  destruct (0 <? Np.norm v)%float.
  - destruct v as [x y z].
    unfold transpose, Np.madd, Np.mscale, Np.mmap2, Np.vmap2, Np.full,
      Np.eye3, Np.outer, Np.vdiv, skew, vneg.
    cbn [row0 row1 row2 v0 v1 v2].
    rewrite !float_div_opp_l, !float_mul_opp_opp, !float_opp_involutive.
    rewrite (float_mul_comm (y / Np.norm (V3 x y z)) (x / Np.norm (V3 x y z))),
      (float_mul_comm (z / Np.norm (V3 x y z)) (x / Np.norm (V3 x y z))),
      (float_mul_comm (z / Np.norm (V3 x y z)) (y / Np.norm (V3 x y z))).
    reflexivity.
  - destruct v as [x y z].
    unfold transpose, Np.madd, Np.mscale, Np.mmap2, Np.vmap2, Np.full,
      Np.eye3, Np.dot3, skew, vneg.
    cbn [row0 row1 row2 v0 v1 v2].
    rewrite !float_mul_opp_opp, !float_opp_involutive.
    reflexivity.
Qed.

End Opposite.
